(** * Polycast-AI word-frequency exporters: scale functions, tiering, probing

    A shallow embedding of [export_wordfreq.py] and
    [export_wordfreq_tiered.py]; [check_wordfreq_limits.py] only prints and is
    left out.

    Python [float] is IEEE-754 binary64.  It is modelled by [spec_float], the
    Standard Library's specification of binary floating point, at precision 53
    and maximal exponent 1024; comparisons are [SFeqb], [SFltb] and [SFleb],
    and the one arithmetic operation the scale functions use, the true
    division of two Python integers, is the correctly rounded quotient
    computed by [SFdiv].  Python [int] is [Z]. *)

From Stdlib Require Import ZArith Lia Bool List.
From Stdlib Require Import SpecFloat.
From stdpp Require Import base option list sorting gmap strings.

Local Open Scope Z_scope.

(** ** Binary64 values *)

Module B64.

Definition prec : Z := 53.
Definition emax : Z := 1024.

Definition float := spec_float.

Definition div : float -> float -> float := SFdiv prec emax.
Definition add : float -> float -> float := SFadd prec emax.

(** An integer as an (unnormalised) operand of [div]. *)
Definition of_int (z : Z) : float :=
  match z with
  | Z0 => S754_zero false
  | Zpos p => S754_finite false p 0
  | Zneg p => S754_finite true p 0
  end.

(** The correctly rounded quotient of two integers, [den] nonzero. *)
Definition of_ratio (num den : Z) : float := div (of_int num) (of_int den).

(** The value of the decimal literal [m]e[e]: the nearest binary64. *)
Definition lit (m e : Z) : float :=
  if 0 <=? e then of_ratio (m * 10 ^ e) 1 else of_ratio m (10 ^ (- e)).

Definition zero : float := S754_zero false.

(** Python's [x == y], [x < y] and [x >= y] on floats. *)
Definition eqb (x y : float) : bool := SFeqb x y.
Definition ltb (x y : float) : bool := SFltb x y.
Definition geb (x y : float) : bool := SFleb y x.
Definition leb (x y : float) : bool := SFleb x y.

Definition is_nan (x : float) : bool :=
  match x with S754_nan => true | _ => false end.

(** [x] is a normal binary64 number within half a unit in the last place of
    the fraction [num / den], and not on a tie. *)
Definition nearest (x : float) (num den : Z) : bool :=
  match x with
  | S754_finite false m e =>
      (2 ^ 52 <=? Zpos m) && (Zpos m <? 2 ^ 53) && (e <=? 0) && (0 <? den)
      && (2 * Z.abs (Zpos m * den - num * 2 ^ (- e)) <? den)
  | _ => false
  end.

End B64.

Abbreviation float := B64.float.

(** The float literals of the two scale functions. *)
Definition f_1e_7 : float := Eval vm_compute in B64.lit 1 (-7).
Definition f_5e_7 : float := Eval vm_compute in B64.lit 5 (-7).
Definition f_1e_6 : float := Eval vm_compute in B64.lit 1 (-6).
Definition f_5e_6 : float := Eval vm_compute in B64.lit 5 (-6).
Definition f_1e_5 : float := Eval vm_compute in B64.lit 1 (-5).
Definition f_5e_5 : float := Eval vm_compute in B64.lit 5 (-5).
Definition f_1e_4 : float := Eval vm_compute in B64.lit 1 (-4).
Definition f_5e_4 : float := Eval vm_compute in B64.lit 5 (-4).
Definition f_1e_3 : float := Eval vm_compute in B64.lit 1 (-3).
Definition f_5e_3 : float := Eval vm_compute in B64.lit 5 (-3).
Definition f_1e_2 : float := Eval vm_compute in B64.lit 1 (-2).


(** The float results of the detailed scale. *)
Definition f_1_0 : float := Eval vm_compute in B64.lit 10 (-1).
Definition f_1_5 : float := Eval vm_compute in B64.lit 15 (-1).
Definition f_2_0 : float := Eval vm_compute in B64.lit 20 (-1).
Definition f_2_5 : float := Eval vm_compute in B64.lit 25 (-1).
Definition f_3_0 : float := Eval vm_compute in B64.lit 30 (-1).
Definition f_4_0 : float := Eval vm_compute in B64.lit 40 (-1).
Definition f_5_0 : float := Eval vm_compute in B64.lit 50 (-1).
Definition f_6_0 : float := Eval vm_compute in B64.lit 60 (-1).
Definition f_7_0 : float := Eval vm_compute in B64.lit 70 (-1).
Definition f_8_0 : float := Eval vm_compute in B64.lit 80 (-1).
Definition f_9_0 : float := Eval vm_compute in B64.lit 90 (-1).
Definition f_10_0 : float := Eval vm_compute in B64.lit 100 (-1).

(** The percentile thresholds of the rank scale; all four are dyadic, hence
    exact: 31/32, 29/32, 25/32 and 17/32. *)
Definition f_0_96875 : float := Eval vm_compute in B64.lit 96875 (-5).
Definition f_0_90625 : float := Eval vm_compute in B64.lit 90625 (-5).
Definition f_0_78125 : float := Eval vm_compute in B64.lit 78125 (-5).
Definition f_0_53125 : float := Eval vm_compute in B64.lit 53125 (-5).

(** ** Exceptions

    [Raised] stands for any exception of class [Exception] that the frequency
    library or the operating system raises; the arithmetic errors of the
    interpreter are named. *)
Inductive exn : Type :=
| ZeroDivisionError
| OverflowError
| Raised (msg : string).

Inductive result (A : Type) : Type :=
| Ok (a : A)
| Raise (e : exn).
Arguments Ok {A} a.
Arguments Raise {A} e.

#[global] Instance result_ret : MRet result := fun A a => Ok a.
#[global] Instance result_bind : MBind result := fun A B k r =>
  match r with
  | Ok a => k a
  | Raise e => Raise e
  end.

(** Python's [a / b] on two integers: the correctly rounded quotient;
    [ZeroDivisionError] on a zero divisor, [OverflowError] when the rounded
    quotient is not finite. *)
Definition int_truediv (a b : Z) : result float :=
  if b =? 0 then Raise ZeroDivisionError
  else match B64.of_ratio a b with
       | S754_infinity _ => Raise OverflowError
       | q => Ok q
       end.

(** ** The frequency library and the operating system

    The two collaborators of the exporters.  Console output is not
    modelled. *)

(** [wordfreq]: the ranked word list of a language and the frequency of a
    word; either call may raise.  The library reads static data: a call is
    a function of its arguments. *)
Class Wordfreq : Type := {
  top_n_list : string -> Z -> result (list string);
  word_frequency : string -> string -> result float
}.

(** Python's [len] of a list. *)
Definition len {A} (l : list A) : Z := Z.of_nat (length l).

(** Python's [str.lower], on the ASCII letters. *)
Definition lower_ascii (c : Ascii.ascii) : Ascii.ascii :=
  let n := Ascii.N_of_ascii c in
  if ((65 <=? n) && (n <=? 90))%N then Ascii.ascii_of_N (n + 32) else c.

Fixpoint lower (s : string) : string :=
  match s with
  | EmptyString => EmptyString
  | String c s' => String (lower_ascii c) (lower s')
  end.

(** The size detection both exporters start with
    ([export_wordfreq.py], lines 34-45; [export_wordfreq_tiered.py],
    lines 70-81): the loop over the candidate sizes, with [max_words] as its
    accumulator.  A failing probe and a short answer both leave the loop. *)
Definition test_sizes : list Z := [100000; 200000; 300000; 400000; 500000].

Fixpoint probe_sizes `{Wordfreq} (language_code : string) (sizes : list Z)
    (max_words : Z) : Z :=
  match sizes with
  | [] => max_words
  | size :: sizes' =>
      match top_n_list language_code size with
      | Raise _ => max_words
      | Ok test_words =>
          if len test_words <? size then len test_words
          else probe_sizes language_code sizes' (len test_words)
      end
  end.

Definition probe_max_words `{Wordfreq} (language_code : string) : Z :=
  probe_sizes language_code test_sizes 50000.

(** The configured languages, in the order of the dictionary literal. *)
Definition languages : list (string * string) :=
  [("English", "en"); ("Spanish", "es"); ("Portuguese", "pt")].

(** *** Files

    What [json.dump] writes is kept as the dumped value.  A computation
    threads the files on disk and may raise; what was written before the
    exception stays. *)
Abbreviation disk document := (gmap string document).

Section Files.
Context {document : Type}.

(** [io_fault path] is the error the operating system answers to creating
    or opening [path], if any; [encoded_size] is the length in bytes of
    the JSON text of a value. *)
Class OS : Type := {
  io_fault : string -> option exn;
  encoded_size : document -> Z
}.

Definition M (A : Type) : Type := disk document -> result A * disk document.

#[global] Instance M_ret : MRet M := fun A a fs => (Ok a, fs).
#[global] Instance M_bind : MBind M := fun A B k m fs =>
  match m fs with
  | (Ok a, fs') => k a fs'
  | (Raise e, fs') => (Raise e, fs')
  end.

Definition lift {A} (r : result A) : M A := fun fs => (r, fs).

(** [try: body except Exception: handler]. *)
Definition try_except {A} (body : M A) (handler : exn -> M A) : M A :=
  fun fs =>
    match body fs with
    | (Ok a, fs') => (Ok a, fs')
    | (Raise e, fs') => handler e fs'
    end.

Context `{OS}.

(** [os.makedirs(path, exist_ok=True)]. *)
Definition makedirs (path : string) : M unit :=
  fun fs =>
    match io_fault path with
    | Some e => (Raise e, fs)
    | None => (Ok (), fs)
    end.

(** [with open(filename, 'w') as f: json.dump(value, f)]. *)
Definition dump_to (filename : string) (value : document) : M unit :=
  fun fs =>
    match io_fault filename with
    | Some e => (Raise e, fs)
    | None => (Ok (), <[filename := value]> fs)
    end.

(** [os.path.getsize(filename)]. *)
Definition getsize (filename : string) : M Z :=
  fun fs =>
    match fs !! filename with
    | Some value => (Ok (encoded_size value), fs)
    | None => (Raise (Raised "FileNotFoundError"), fs)
    end.

(** [os.path.getsize(filename) / 1024 / 1024]. *)
Definition getsize_mb (filename : string) : M float :=
  bytes ← getsize filename;
  kb ← lift (int_truediv bytes 1024);
  mret (B64.div kb (B64.of_int 1024)).

(** The loop of [main] over the languages: it adds up what each export
    returns. *)
Fixpoint export_all (export : string -> string -> M Z)
    (langs : list (string * string)) (total_words : Z) : M Z :=
  match langs with
  | [] => mret total_words
  | (lang_name, lang_code) :: langs' =>
      word_count ← export lang_name lang_code;
      export_all export langs' (total_words + word_count)
  end.

End Files.
Arguments OS : clear implicits.
Arguments M : clear implicits.

(** ** [export_wordfreq.py] *)
Module Flat.

(** The mapping word -> scale that is dumped. *)
Abbreviation document := (gmap string Z).

(** Lines 11-24. *)
Definition convert_frequency_to_scale (freq : float) : Z :=
  if B64.eqb freq B64.zero then 1
  else if B64.ltb freq f_1e_6 then 1
  else if B64.ltb freq f_1e_5 then 2
  else if B64.ltb freq f_1e_4 then 3
  else if B64.ltb freq f_1e_3 then 4
  else 5.

Section Exporter.
Context `{Wordfreq} `{OS document}.

(** Lines 57-63: the loop filling [freq_data]. *)
Fixpoint scale_words (language_code : string) (words : list string)
    (freq_data : gmap string Z) : result (gmap string Z) :=
  match words with
  | [] => Ok freq_data
  | word :: words' =>
      freq ← word_frequency word language_code;
      let scaled_freq := convert_frequency_to_scale freq in
      scale_words language_code words' (<[word := scaled_freq]> freq_data)
  end.

(** Lines 31-76: the body of the [try] statement. *)
Definition export_language_frequencies_body
    (language_name language_code : string) (num_words : option Z)
    : M document Z :=
  words ← lift (match num_words with
                | None => top_n_list language_code (probe_max_words language_code)
                | Some n => top_n_list language_code n
                end);
  freq_data ← lift (scale_words language_code words ∅);
  _ ← makedirs "public";
  let filename := "public/wordfreq-" +:+ lower language_name +:+ ".json" in
  _ ← dump_to filename freq_data;
  file_size_mb ← getsize_mb filename;
  mret (Z.of_nat (size freq_data)).

(** Lines 26-80. *)
Definition export_language_frequencies (language_name language_code : string)
    (num_words : option Z) : M document Z :=
  try_except
    (export_language_frequencies_body language_name language_code num_words)
    (fun e => mret 0).

(** Lines 86-96: the languages and the loop over them. *)
Definition main : M document Z :=
  export_all (fun lang_name lang_code =>
                export_language_frequencies lang_name lang_code None)
             languages 0.

End Exporter.

End Flat.

(** ** [export_wordfreq_tiered.py] *)
Module Tiered.

(** Lines 12-39. *)
Definition convert_frequency_to_detailed_scale (freq : float) : float :=
  if B64.eqb freq B64.zero then f_1_0
  else if B64.ltb freq f_1e_7 then f_1_0
  else if B64.ltb freq f_5e_7 then f_1_5
  else if B64.ltb freq f_1e_6 then f_2_0
  else if B64.ltb freq f_5e_6 then f_2_5
  else if B64.ltb freq f_1e_5 then f_3_0
  else if B64.ltb freq f_5e_5 then f_4_0
  else if B64.ltb freq f_1e_4 then f_5_0
  else if B64.ltb freq f_5e_4 then f_6_0
  else if B64.ltb freq f_1e_3 then f_7_0
  else if B64.ltb freq f_5e_3 then f_8_0
  else if B64.ltb freq f_1e_2 then f_9_0
  else f_10_0.

(** Lines 41-62. *)
Definition convert_to_user_scale_by_rank (rank total_words : Z) : result Z :=
  percentile ← int_truediv (total_words - rank + 1) total_words;
  if B64.geb percentile f_0_96875 then Ok 5
  else if B64.geb percentile f_0_90625 then Ok 4
  else if B64.geb percentile f_0_78125 then Ok 3
  else if B64.geb percentile f_0_53125 then Ok 2
  else Ok 1.

(** The dictionaries of the export, as records. *)
Record word_entry : Type := {
  word : string;
  frequency : float;
  rank : Z;
  user_frequency : Z
}.

Record lookup_entry : Type := {
  lookup_frequency : float;
  lookup_rank : Z;
  lookup_user_frequency : Z
}.

Record tier_info_block : Type := {
  name : string;
  word_count : Z;
  rank_range : Z * Z
}.

Record tier_export : Type := {
  words : list word_entry;
  lookup : gmap string lookup_entry;
  tier_info : tier_info_block
}.

Record tier_boundaries : Type := {
  boundary_core : Z;
  boundary_extended : Z;
  boundary_complete : Z
}.

Record tiers : Type := {
  core : list word_entry;
  extended : list word_entry;
  complete : list word_entry
}.

Record tier_summary : Type := {
  summary_words : Z;
  summary_size_mb : float;
  summary_filename : string;
  summary_rank_range : Z * Z
}.

Record metadata : Type := {
  language : string;
  language_code : string;
  total_words : Z;
  total_size_mb : float;
  metadata_tiers : gmap string tier_summary;
  frequency_scale : string * string;
  metadata_tier_boundaries : tier_boundaries
}.

Inductive document : Type :=
| TierFile (t : tier_export)
| MetadataFile (m : metadata).

(** Lines 119-124: the tier a word entry at position [i] is appended to. *)
Definition append_to_tier (b : tier_boundaries) (i : Z) (e : word_entry)
    (ts : tiers) : tiers :=
  if i <? boundary_core b then
    {| core := core ts ++ [e]; extended := extended ts; complete := complete ts |}
  else if i <? boundary_extended b then
    {| core := core ts; extended := extended ts ++ [e]; complete := complete ts |}
  else
    {| core := core ts; extended := extended ts; complete := complete ts ++ [e] |}.

(** Lines 142-146: the value of the dictionary comprehension for one entry,
    and the comprehension; a later entry of the same word replaces an
    earlier one. *)
Definition lookup_value (entry : word_entry) : lookup_entry :=
  {| lookup_frequency := frequency entry;
     lookup_rank := rank entry;
     lookup_user_frequency := user_frequency entry |}.

Definition lookup_of (tier_data : list word_entry) : gmap string lookup_entry :=
  foldl (fun m entry => <[word entry := lookup_value entry]> m) ∅ tier_data.

(** Lines 140-152. *)
Definition make_tier_export (tier_name : string) (tier_data : list word_entry)
    : tier_export :=
  {| words := tier_data;
     lookup := lookup_of tier_data;
     tier_info :=
       {| name := tier_name;
          word_count := len tier_data;
          rank_range :=
            match tier_data with
            | first :: _ => (rank first, rank (List.last tier_data first))
            | [] => (0, 0)
            end |} |}.

Section Exporter.
Context `{Wordfreq} `{OS document}.

(** Lines 102-124: the loop over [enumerate(all_words)], from position
    [i] on; [total] is [len(all_words)]. *)
Fixpoint fill_tiers (language_code : string) (b : tier_boundaries)
    (total : Z) (i : Z) (all_words : list string) (ts : tiers)
    : result tiers :=
  match all_words with
  | [] => Ok ts
  | w :: all_words' =>
      freq ← word_frequency w language_code;
      let detailed_freq := convert_frequency_to_detailed_scale freq in
      let rank := i + 1 in
      user_freq ← convert_to_user_scale_by_rank rank total;
      let word_entry := {| word := w; frequency := detailed_freq;
                           rank := rank; user_frequency := user_freq |} in
      fill_tiers language_code b total (i + 1) all_words'
                 (append_to_tier b i word_entry ts)
  end.

(** Lines 133-167: one tier; an empty tier is skipped.  The state of the
    loop is [total_size] and the [tier_info] dictionary, here [info]. *)
Definition export_tier (language_name : string)
    (state : float * gmap string tier_summary)
    (tier : string * list word_entry)
    : M document (float * gmap string tier_summary) :=
  let '(total_size, info) := state in
  let '(tier_name, tier_data) := tier in
  match tier_data with
  | [] => mret state
  | _ :: _ =>
      let filename := "public/wordfreq-tiers/" +:+ lower language_name
                      +:+ "-" +:+ tier_name +:+ ".json" in
      let tier_export := make_tier_export tier_name tier_data in
      _ ← dump_to filename (TierFile tier_export);
      file_size_mb ← getsize_mb filename;
      mret (B64.add total_size file_size_mb,
            <[tier_name := {| summary_words := len tier_data;
                              summary_size_mb := file_size_mb;
                              summary_filename := filename;
                              summary_rank_range :=
                                rank_range (tier_info tier_export) |}]> info)
  end.

Fixpoint export_tiers (language_name : string)
    (state : float * gmap string tier_summary)
    (items : list (string * list word_entry))
    : M document (float * gmap string tier_summary) :=
  match items with
  | [] => mret state
  | tier :: items' =>
      state' ← export_tier language_name state tier;
      export_tiers language_name state' items'
  end.

(** Lines 69-188: the body of the [try] statement. *)
Definition export_tiered_language_data_body
    (language_name language_code : string) : M document Z :=
  let max_words := probe_max_words language_code in
  all_words ← lift (top_n_list language_code max_words);
  let tier_boundaries := {| boundary_core := 15000;
                            boundary_extended := 65000;
                            boundary_complete := max_words |} in
  tiers ← lift (fill_tiers language_code tier_boundaries (len all_words) 0
                           all_words
                           {| core := []; extended := []; complete := [] |});
  _ ← makedirs "public/wordfreq-tiers";
  '(total_size, info) ←
    export_tiers language_name (B64.zero, ∅)
                 [("core", core tiers); ("extended", extended tiers);
                  ("complete", complete tiers)];
  let metadata := {| language := language_name;
                     language_code := language_code;
                     total_words := len all_words;
                     total_size_mb := total_size;
                     metadata_tiers := info;
                     frequency_scale := ("1.0-10.0 with decimals",
                                         "1-5 integer scale");
                     metadata_tier_boundaries := tier_boundaries |} in
  let metadata_file := "public/wordfreq-tiers/" +:+ lower language_name
                       +:+ "-metadata.json" in
  _ ← dump_to metadata_file (MetadataFile metadata);
  mret (len all_words).

(** Lines 64-192. *)
Definition export_tiered_language_data (language_name language_code : string)
    : M document Z :=
  try_except (export_tiered_language_data_body language_name language_code)
             (fun e => mret 0).

(** Lines 199-209. *)
Definition main : M document Z :=
  export_all export_tiered_language_data languages 0.

End Exporter.

End Tiered.

(** ** [check_wordfreq_limits.py]

    The script only prints.  A printed line is kept as the values it
    shows, not as formatted text. *)
Module Limits.

(** [wordfreq.available_languages()]: the language codes, the keys of the
    dictionary it returns; the call may raise. *)
Class Languages : Type := {
  available_languages : result (list string)
}.

Inductive line : Type :=
| Banner
| Rule
| LanguageHeader (lang_name lang_code : string)
| Requested (size actual_count : Z)
| ProbeError (size : Z) (e : exn)
| Maximum (max_available : Z)
| AllLanguages
| Total (n : Z)
| Language (lang : string).

(** Line 24. *)
Definition test_sizes : list Z :=
  [10000; 25000; 50000; 100000; 200000; 500000; 1000000].

(** Lines 27-40: the loop over the sizes; it returns the lines printed
    and [max_available]. *)
Fixpoint probe_lines `{Wordfreq} (lang_code : string) (sizes : list Z)
    (max_available : Z) : list line * Z :=
  match sizes with
  | [] => ([], max_available)
  | size :: sizes' =>
      match top_n_list lang_code size with
      | Ok words =>
          let actual_count := len words in
          if actual_count <? size then ([Requested size actual_count], actual_count)
          else
            let '(lines, max_available') :=
              probe_lines lang_code sizes' actual_count in
            (Requested size actual_count :: lines, max_available')
      | Raise e => ([ProbeError size e], max_available)
      end
  end.

(** Lines 20-42: the body of the loop over the languages. *)
Definition check_language `{Wordfreq} (lang_name lang_code : string) : list line :=
  let '(lines, max_available) := probe_lines lang_code test_sizes 0 in
  LanguageHeader lang_name lang_code :: lines ++ [Maximum max_available].

(** Python's [sorted] on strings: ascending in the order of the code points,
    which on UTF-8 text is the order of the bytes. *)
Definition sorted (l : list string) : list string :=
  merge_sort (fun a b => Is_true (String.leb a b)) l.

(** Lines 9-49: the lines printed, and whether the script ends normally;
    an exception of [available_languages] is not caught. *)
Definition check_language_limits `{Wordfreq} `{Languages} : list line * result unit :=
  let printed :=
    [Banner; Rule]
    ++ concat (map (fun '(lang_name, lang_code) => check_language lang_name lang_code)
                   languages)
    ++ [Rule; AllLanguages] in
  match available_languages with
  | Raise e => (printed, Raise e)
  | Ok all_langs =>
      (printed ++ Total (len all_langs) :: map Language (sorted all_langs), Ok ())
  end.

End Limits.

(** ** The step functions of the specification

    A table of rows [(bound, value)]: the value at zero is [at_zero],
    otherwise the value of the first row whose bound is above [f], and
    [otherwise] when no bound is. *)
Fixpoint step_rows {A} (rows : list (float * A)) (otherwise : A) (f : float) : A :=
  match rows with
  | [] => otherwise
  | (bound, value) :: rows' =>
      if B64.ltb f bound then value else step_rows rows' otherwise f
  end.

Definition step_function {A} (at_zero : A) (rows : list (float * A))
    (otherwise : A) (f : float) : A :=
  if B64.eqb f B64.zero then at_zero else step_rows rows otherwise f.

(** freq==0 or <1e-6 -> 1; <1e-5 -> 2; <1e-4 -> 3; <1e-3 -> 4; else -> 5. *)
Definition flat_step : float -> Z :=
  step_function 1
    [(B64.lit 1 (-6), 1); (B64.lit 1 (-5), 2); (B64.lit 1 (-4), 3);
     (B64.lit 1 (-3), 4)]
    5.

(** 0 -> 1.0; <1e-7 -> 1.0; <5e-7 -> 1.5; <1e-6 -> 2.0; <5e-6 -> 2.5;
    <1e-5 -> 3.0; <5e-5 -> 4.0; <1e-4 -> 5.0; <5e-4 -> 6.0; <1e-3 -> 7.0;
    <5e-3 -> 8.0; <1e-2 -> 9.0; else -> 10.0. *)
Definition detailed_step : float -> float :=
  step_function (B64.lit 10 (-1))
    [(B64.lit 1 (-7), B64.lit 10 (-1)); (B64.lit 5 (-7), B64.lit 15 (-1));
     (B64.lit 1 (-6), B64.lit 20 (-1)); (B64.lit 5 (-6), B64.lit 25 (-1));
     (B64.lit 1 (-5), B64.lit 30 (-1)); (B64.lit 5 (-5), B64.lit 40 (-1));
     (B64.lit 1 (-4), B64.lit 50 (-1)); (B64.lit 5 (-4), B64.lit 60 (-1));
     (B64.lit 1 (-3), B64.lit 70 (-1)); (B64.lit 5 (-3), B64.lit 80 (-1));
     (B64.lit 1 (-2), B64.lit 90 (-1))]
    (B64.lit 100 (-1)).

(** The twelve values of the detailed scale. *)
Definition detailed_values : list float :=
  [B64.lit 10 (-1); B64.lit 15 (-1); B64.lit 20 (-1); B64.lit 25 (-1);
   B64.lit 30 (-1); B64.lit 40 (-1); B64.lit 50 (-1); B64.lit 60 (-1);
   B64.lit 70 (-1); B64.lit 80 (-1); B64.lit 90 (-1); B64.lit 100 (-1)].

(** The values of a table ascend, from [v] on. *)
Fixpoint ascending {A} (leb : A -> A -> bool) (v : A) (rows : list (float * A))
    (otherwise : A) : bool :=
  leb v v &&
  match rows with
  | [] => leb v otherwise && leb otherwise otherwise
  | (_, v') :: rows' => leb v v' && ascending leb v' rows' otherwise
  end.

(** The raw frequencies of the five-word example: 0.02, 0.003, 0.00005,
    0.0000005 and 0. *)
Definition example_frequencies : list float :=
  [B64.lit 2 (-2); B64.lit 3 (-3); B64.lit 5 (-5); B64.lit 5 (-7); B64.zero].

(** ** Auxiliary definitions for the rounding of a quotient *)

(** The mantissa [binary_round_aux] rounds to, after [j] shifts (none or
    one) of the quotient [q] at location [l]. *)
Definition rnd (q : Z) (l : location) (j : bool) : Z :=
  let mrs := if j then shr_1 (shr_record_of_loc q l) else shr_record_of_loc q l in
  round_nearest_even (shr_m mrs) (loc_of_shr_record mrs).

(** The exponent the division of [a] by [b] starts from. *)
Definition div_exp (a b : positive) : Z :=
  Z.min (Z.max (Zpos (digits2_pos a) - Zpos (digits2_pos b) - 53) (-1074)) 0.

(** ** The rank scale on exact percentiles

    The cascade of [convert_to_user_scale_by_rank] on the percentile
    [(total - rank + 1) / total] as a rational number, cross-multiplied:
    0.96875 = 31/32, 0.90625 = 29/32, 0.78125 = 25/32, 0.53125 = 17/32. *)
Definition rank_scale_exact (rank total_words : Z) : Z :=
  let a := total_words - rank + 1 in
  if 31 * total_words <=? 32 * a then 5
  else if 29 * total_words <=? 32 * a then 4
  else if 25 * total_words <=? 32 * a then 3
  else if 17 * total_words <=? 32 * a then 2
  else 1.

(** The same cascade on the percentile rounded to binary64: the rounded
    quotient reaches k/32 as soon as the exact one reaches k/32 - 2^-54. *)
Definition rank_scale_rounded (rank total_words : Z) : Z :=
  let a := total_words - rank + 1 in
  if (31 * 2 ^ 49 - 1) * total_words <=? 2 ^ 54 * a then 5
  else if (29 * 2 ^ 49 - 1) * total_words <=? 2 ^ 54 * a then 4
  else if (25 * 2 ^ 49 - 1) * total_words <=? 2 ^ 54 * a then 3
  else if (17 * 2 ^ 49 - 1) * total_words <=? 2 ^ 54 * a then 2
  else 1.

(** The ranks 1..T, and how many of them are given the score [s]. *)
Definition ranks (T : Z) : list Z := map Z.of_nat (seq 1 (Z.to_nat T)).

Definition band_count (T s : Z) : Z :=
  len (List.filter
         (fun r => match Tiered.convert_to_user_scale_by_rank r T with
                   | Ok s' => s' =? s
                   | Raise _ => false
                   end)
         (ranks T)).

(** The ranks split 16 : 8 : 4 : 2 : 1, out of 32, over the scores 1 to 5. *)
Definition bands_16_8_4_2_1 (T : Z) : Prop :=
  32 * band_count T 1 = 16 * T /\
  32 * band_count T 2 = 8 * T /\
  32 * band_count T 3 = 4 * T /\
  32 * band_count T 4 = 2 * T /\
  32 * band_count T 5 = 1 * T.

(** ** A source and an operating system for examples

    Every language has the ranked list [vocabulary] and a request for [n]
    words returns its first [n]; every word has the frequency 0.001; a
    request for a language in [broken] raises.  The operating system never
    fails and every file has one byte. *)
Definition mock_wordfreq (vocabulary broken : list string) : Wordfreq :=
  {| top_n_list := fun language_code n =>
       if bool_decide (language_code ∈ broken) then Raise (Raised "LookupError")
       else Ok (take (Z.to_nat n) vocabulary);
     word_frequency := fun word language_code => Ok (B64.lit 1 (-3)) |}.

Definition mock_os {document : Type} : OS document :=
  {| io_fault := fun path => None; encoded_size := fun value => 1 |}.

(** ** The state of the tier loop

    The boundaries the exporter uses; the share of the positions below [i]
    that each tier holds before position [i] is processed; and the entries
    of the three tiers, one tier after the other. *)
Definition tier_limits (max_words : Z) : Tiered.tier_boundaries :=
  {| Tiered.boundary_core := 15000; Tiered.boundary_extended := 65000;
     Tiered.boundary_complete := max_words |}.

Definition tiers_filled (i : Z) (ts : Tiered.tiers) : Prop :=
  len (Tiered.core ts) = Z.min i 15000 /\
  len (Tiered.extended ts) = Z.min i 65000 - Z.min i 15000 /\
  len (Tiered.complete ts) = i - Z.min i 65000.

Definition tier_entries (ts : Tiered.tiers) : list Tiered.word_entry :=
  Tiered.core ts ++ Tiered.extended ts ++ Tiered.complete ts.

(** ** File names and a coarser scale

    The paths the exporters write for a language, and the flat scale read
    off the detailed one: up to 2.0 gives 1, up to 3.0 gives 2, up to 5.0
    gives 3, up to 7.0 gives 4, above gives 5. *)
Definition flat_file (language_name : string) : string :=
  "public/wordfreq-" +:+ lower language_name +:+ ".json".

Definition tier_file (language_name tier_name : string) : string :=
  "public/wordfreq-tiers/" +:+ lower language_name +:+ "-" +:+ tier_name
  +:+ ".json".

Definition metadata_file (language_name : string) : string :=
  "public/wordfreq-tiers/" +:+ lower language_name +:+ "-metadata.json".

Definition coarsen (detailed : float) : Z :=
  if B64.ltb detailed (B64.lit 25 (-1)) then 1
  else if B64.ltb detailed (B64.lit 40 (-1)) then 2
  else if B64.ltb detailed (B64.lit 60 (-1)) then 3
  else if B64.ltb detailed (B64.lit 80 (-1)) then 4
  else 5.

(** The words of a list, each once. *)
Definition distinct_words (words : list string) : gset string :=
  list_to_set words.

(** ** The report of the limit checker

    What the specification of the checker lets one expect for a language
    whose list holds [N] words: the sizes are requested in order up to the
    first one above [N]; each request shows what was available; the
    maximum follows. *)
Fixpoint requested_sizes (N : Z) (sizes : list Z) : list Z :=
  match sizes with
  | [] => []
  | size :: sizes' =>
      if N <? size then [size] else size :: requested_sizes N sizes'
  end.

Definition language_report (lang_name lang_code : string) (N : Z)
    : list Limits.line :=
  Limits.LanguageHeader lang_name lang_code
  :: map (fun size => Limits.Requested size (Z.min N size))
         (requested_sizes N Limits.test_sizes)
  ++ [Limits.Maximum (Z.min N 1000000)].

(** A word list of [N] words behind [top_n_list], as far as the sizes of
    the checker go. *)
Definition holds_words `{Wordfreq} (lang_code : string) (N : Z) : Prop :=
  forall size, In size Limits.test_sizes ->
    exists words, top_n_list lang_code size = Ok words /\
                  len words = Z.min N size.

(** * Properties *)

(** ** The order of binary64 values *)
Module B64Facts.

Ltac cmp_cases :=
  repeat match goal with
  | |- context [Pos.compare_cont Eq ?a ?b] =>
      change (Pos.compare_cont Eq a b) with (Pos.compare a b)
  | H : context [Pos.compare_cont Eq ?a ?b] |- _ =>
      change (Pos.compare_cont Eq a b) with (Pos.compare a b) in H
  end;
  repeat match goal with
  | H : context [Z.compare ?a ?b] |- _ =>
      destruct (Z.compare_spec a b); simpl in H
  | H : context [Pos.compare ?a ?b] |- _ =>
      destruct (Pos.compare_spec a b); simpl in H
  | |- context [Z.compare ?a ?b] =>
      destruct (Z.compare_spec a b); simpl
  | |- context [Pos.compare ?a ?b] =>
      destruct (Pos.compare_spec a b); simpl
  end;
  subst; try reflexivity; try discriminate; try lia.

Lemma compare_swap (x y : float) :
  SFcompare y x = CompOpp <$> SFcompare x y.
Proof.
  destruct x as [[]|[]| |[] mx ex], y as [[]|[]| |[] my ey];
    simpl; try reflexivity; f_equal; cmp_cases.
Qed.

Lemma le_lt_trans (x y z : float) :
  B64.leb x y = true -> B64.ltb y z = true -> B64.ltb x z = true.
Proof.
  unfold B64.leb, B64.ltb, SFleb, SFltb.
  destruct x as [[]|[]| |[] mx ex], y as [[]|[]| |[] my ey],
           z as [[]|[]| |[] mz ez];
    simpl; intros Hxy Hyz; try reflexivity; try discriminate; cmp_cases.
Qed.

Lemma le_trans (x y z : float) :
  B64.leb x y = true -> B64.leb y z = true -> B64.leb x z = true.
Proof.
  unfold B64.leb, SFleb.
  destruct x as [[]|[]| |[] mx ex], y as [[]|[]| |[] my ey],
           z as [[]|[]| |[] mz ez];
    simpl; intros Hxy Hyz; try reflexivity; try discriminate; cmp_cases.
Qed.

(** Away from NaN, [x < y] fails exactly when [y <= x]. *)
Lemma ltb_false_geb (x y : float) :
  B64.is_nan x = false -> B64.is_nan y = false ->
  B64.ltb x y = negb (B64.geb x y).
Proof.
  unfold B64.ltb, B64.geb, SFltb, SFleb. intros Hx Hy.
  rewrite (compare_swap x y).
  destruct x as [[]|[]| |[] mx ex], y as [[]|[]| |[] my ey];
    try discriminate; simpl; try reflexivity; cmp_cases.
Qed.

Lemma leb_not_nan (x y : float) :
  B64.leb x y = true -> B64.is_nan x = false /\ B64.is_nan y = false.
Proof.
  unfold B64.leb, SFleb.
  destruct x as [[]|[]| |[] mx ex], y as [[]|[]| |[] my ey];
    simpl; intros Hxy; try discriminate; split; reflexivity.
Qed.

Lemma eqb_zero_leb (x y : float) :
  B64.leb x y = true -> B64.eqb y B64.zero = true ->
  B64.leb x B64.zero = true.
Proof.
  unfold B64.leb, B64.eqb, SFleb, SFeqb, B64.zero.
  destruct x as [[]|[]| |[] mx ex], y as [[]|[]| |[] my ey];
    simpl; intros Hxy Hy; try reflexivity; try discriminate.
Qed.

Lemma lt_trans (x y z : float) :
  B64.ltb x y = true -> B64.ltb y z = true -> B64.ltb x z = true.
Proof.
  unfold B64.ltb, SFltb.
  destruct x as [[]|[]| |[] mx ex], y as [[]|[]| |[] my ey],
           z as [[]|[]| |[] mz ez];
    simpl; intros Hxy Hyz; try reflexivity; try discriminate; cmp_cases.
Qed.

Lemma eqb_zero_lt_pos (x : float) m e :
  B64.eqb x B64.zero = true -> B64.ltb x (S754_finite false m e) = true.
Proof.
  unfold B64.eqb, B64.ltb, SFeqb, SFltb, B64.zero.
  destruct x as [[]|[]| |[] mx ex]; simpl; congruence.
Qed.

End B64Facts.

(** ** Rounding of the integer quotient

    What [B64.of_ratio a b] is for [1 <= a <= b], read off the algorithm of
    [SFdiv]: the quotient [a * 2^s / b] has at most 54 bits, is shifted by at
    most one bit and rounded to nearest, ties to even. *)
Module DivFacts.

Lemma digits2_pos_size p : digits2_pos p = Pos.size p.
Proof. induction p; simpl; congruence. Qed.

Lemma Zdigits2_bounds p :
  2 ^ (Zpos (digits2_pos p) - 1) <= Zpos p < 2 ^ Zpos (digits2_pos p).
Proof.
  rewrite digits2_pos_size.
  pose proof (Pos.size_gt p) as Hgt. pose proof (Pos.size_le p) as Hle.
  apply Pos2Z.pos_lt_pos in Hgt. apply Pos2Z.pos_le_pos in Hle.
  rewrite Pos2Z.inj_pow in Hgt, Hle.
  change (Zpos p~0) with (2 * Zpos p) in Hle.
  assert (2 ^ Zpos (Pos.size p) = 2 * 2 ^ (Zpos (Pos.size p) - 1)).
  { rewrite <- Z.pow_succ_r by lia. f_equal. lia. }
  lia.
Qed.

Lemma Zdigits2_le n q :
  0 <= n -> 0 <= q < 2 ^ n -> Zdigits2 q <= n.
Proof.
  intros Hn [Hq0 Hq]. destruct q as [|p|p]; simpl; try lia.
  pose proof (Zdigits2_bounds p) as [Hlo _].
  destruct (Z_lt_le_dec n (Zpos (digits2_pos p))) as [Hlt|]; [|lia].
  exfalso. assert (2 ^ n <= 2 ^ (Zpos (digits2_pos p) - 1)).
  { apply Z.pow_le_mono_r; lia. }
  lia.
Qed.

Lemma Zdigits2_ge n q :
  0 <= n -> 2 ^ n <= q -> n + 1 <= Zdigits2 q.
Proof.
  intros Hn Hq. assert (0 < 2 ^ n) by (apply Z.pow_pos_nonneg; lia).
  destruct q as [|p|p]; simpl; try lia.
  pose proof (Zdigits2_bounds p) as [_ Hhi].
  destruct (Z_lt_le_dec (Zpos (digits2_pos p)) (n + 1)) as [Hlt|]; [|lia].
  exfalso. assert (2 ^ Zpos (digits2_pos p) <= 2 ^ n).
  { apply Z.pow_le_mono_r; lia. }
  lia.
Qed.

(** new_location *)
Lemma new_location_spec b r :
  0 < b -> 0 <= r < b ->
  new_location b r = if r =? 0 then loc_Exact else loc_Inexact (2 * r ?= b).
Proof.
  intros Hb Hr. unfold new_location, new_location_even, new_location_odd.
  destruct (Z.even b) eqn:Heven; destruct (r =? 0); try reflexivity.
  f_equal.
  destruct (Z.compare_spec (2 * r + 1) b) as [Heq|Hlt|Hgt].
  - symmetry. apply Z.compare_lt_iff. lia.
  - symmetry. apply Z.compare_lt_iff. lia.
  - symmetry. apply Z.compare_gt_iff.
    assert (2 * r <> b).
    { intros <-. rewrite Z.even_mul in Heven. discriminate. }
    lia.
Qed.

Lemma shr_fexp_small q e l :
  0 <= q < 2 ^ 54 -> -1074 <= e ->
  shr_fexp B64.prec B64.emax q e l =
  if q <? 2 ^ 53 then (shr_record_of_loc q l, e)
  else (shr_1 (shr_record_of_loc q l), e + 1).
Proof.
  intros [Hq0 Hq] He. unfold shr_fexp, shr, fexp, emin, B64.prec, B64.emax.
  destruct (Z.ltb_spec q (2 ^ 53)) as [Hlt|Hge].
  - pose proof (Zdigits2_le 53 q ltac:(lia) ltac:(lia)) as Hd.
    set (n := Z.max (Zdigits2 q + e - 53) (3 - 1024 - 53) - e).
    assert (Hn : n <= 0) by (subst n; lia).
    destruct n; try reflexivity. lia.
  - pose proof (Zdigits2_le 54 q ltac:(lia) ltac:(lia)) as Hd.
    pose proof (Zdigits2_ge 53 q ltac:(lia) Hge) as Hd'.
    replace (Z.max (Zdigits2 q + e - 53) (3 - 1024 - 53) - e) with 1 by lia.
    reflexivity.
Qed.

Lemma mul_le_cancel b x y c :
  0 < b -> 0 <= c < b -> (x * b <= y * b + c <-> x <= y).
Proof. intros Hb Hc. split; intros H; nia. Qed.

Lemma rnd_spec N b (j : bool) :
  0 < b -> 0 <= N ->
  let q := N / b in
  let r := N mod b in
  let m := rnd q (new_location b r) j in
  let D := if j then 2 * b else b in
  let q' := if j then q / 2 else q in
  (forall M, Z.even M = true -> (M <= m <-> (2 * M - 1) * D <= 2 * N)) /\
  q' <= m <= q' + 1.
Proof.
  intros Hb HN q r m D q'.
  pose proof (Z.div_mod N b ltac:(lia)) as HNqr. fold q r in HNqr.
  pose proof (Z.mod_pos_bound N b Hb) as Hr. fold r in Hr.
  assert (Hq : 0 <= q) by (apply Z.div_pos; lia).
  subst m. rewrite (new_location_spec b r Hb Hr).
  clearbody q r. subst N.
  assert (HM : forall M, Z.even M = true -> exists k, M = 2 * k).
  { intros M HMe. apply Z.even_spec in HMe. destruct HMe as [k ->]. exists k. lia. }
  destruct j; subst D q'; unfold rnd.
  - (* one shift *)
    assert (Hq2 : q = 2 * (q / 2) + (if Z.odd q then 1 else 0)).
    { pose proof (Z.div2_odd q) as Hd. rewrite Z.div2_div in Hd.
      destruct (Z.odd q); cbn [Z.b2z] in Hd; lia. }
    assert (Hshr : forall rb sb, shr_1 {| shr_m := q; shr_r := rb; shr_s := sb |}
                   = {| shr_m := q / 2; shr_r := Z.odd q; shr_s := rb || sb |}).
    { intros rb sb. rewrite <- Z.div2_div.
      destruct q as [|[t|t|]|t]; try lia; reflexivity. }
    set (p := q / 2) in *. clearbody p.
    destruct (Z.eqb_spec r 0) as [Hr0|Hr0];
      [|destruct (Z.compare_spec (2 * r) b)]; cbn [shr_record_of_loc];
      rewrite Hshr; destruct (Z.odd q) eqn:Hodd;
      cbn [loc_of_shr_record round_nearest_even shr_m shr_r shr_s orb];
      try (destruct (Z.even p) eqn:Hp;
           [apply Z.even_spec in Hp as [t Ht]
           |rewrite <- Z.negb_odd in Hp; apply negb_false_iff, Z.odd_spec in Hp as [t Ht]]);
      (split; [intros M HMe; destruct (HM M HMe) as [k ->]|lia]); nia.
  - destruct (Z.eqb_spec r 0) as [Hr0|Hr0];
      [|destruct (Z.compare_spec (2 * r) b)];
      cbn [shr_record_of_loc loc_of_shr_record round_nearest_even shr_m shr_r shr_s];
      try (destruct (Z.even q) eqn:Hp;
           [apply Z.even_spec in Hp as [t Ht]
           |rewrite <- Z.negb_odd in Hp; apply negb_false_iff, Z.odd_spec in Hp as [t Ht]]);
      (split; [intros M HMe; destruct (HM M HMe) as [k ->]|lia]); nia.
Qed.

Lemma leb_finite_pos m1 e1 m2 e2 :
  SFleb (S754_finite false m1 e1) (S754_finite false m2 e2) =
  (e1 <? e2) || ((e1 =? e2) && (Zpos m1 <=? Zpos m2)).
Proof.
  unfold SFleb, SFcompare.
  change (Pos.compare_cont Eq m1 m2) with (Pos.compare m1 m2).
  destruct (Z.compare_spec e1 e2) as [He|He|He].
  - subst. rewrite Z.ltb_irrefl, Z.eqb_refl. simpl.
    destruct (Pos.compare_spec m1 m2) as [H|H|H];
      symmetry; [apply Z.leb_le|apply Z.leb_le|apply Z.leb_gt]; lia.
  - apply Z.ltb_lt in He. rewrite He. reflexivity.
  - assert (H1 : (e1 <? e2) = false) by (apply Z.ltb_ge; lia).
    assert (H2 : (e1 =? e2) = false) by (apply Z.eqb_neq; lia).
    rewrite H1, H2. reflexivity.
Qed.

(** The value [binary_round_aux] returns on a quotient below 2^54. *)
Lemma binary_round_aux_small sx N b e :
  0 < b -> 0 <= N < 2 ^ 54 * b -> -1074 <= e <= 900 ->
  let q := N / b in
  let j := negb (q <? 2 ^ 53) in
  let m := rnd q (new_location b (N mod b)) j in
  let E := if j then e + 1 else e in
  binary_round_aux B64.prec B64.emax sx q e (new_location b (N mod b)) =
  if m =? 0 then S754_zero sx
  else if m <? 2 ^ 53 then S754_finite sx (Z.to_pos m) E
       else S754_finite sx (Z.to_pos (2 ^ 52)) (E + 1).
Proof.
  intros Hb HN He q j m E.
  assert (Hq : 0 <= q < 2 ^ 54).
  { subst q. split; [apply Z.div_pos; lia|].
    apply Z.div_lt_upper_bound; lia. }
  pose proof (rnd_spec N b j Hb ltac:(lia)) as [_ Hm]. cbv zeta in Hm.
  fold q in Hm. fold m in Hm.
  assert (Hq2 : j = true -> q / 2 < 2 ^ 53).
  { intros _. apply Z.div_lt_upper_bound; lia. }
  assert (Hj : j = false -> q < 2 ^ 53).
  { subst j. destruct (Z.ltb_spec q (2 ^ 53)); simpl; [lia|discriminate]. }
  assert (Hm53 : 0 <= m <= 2 ^ 53).
  { destruct j; [specialize (Hq2 eq_refl)|specialize (Hj eq_refl)].
    - assert (0 <= q / 2) by (apply Z.div_pos; lia). lia.
    - lia. }
  unfold binary_round_aux.
  rewrite (shr_fexp_small q e _ Hq ltac:(lia)).
  assert (Hstage1 :
    (if q <? 2 ^ 53 then (shr_record_of_loc q (new_location b (N mod b)), e)
     else (shr_1 (shr_record_of_loc q (new_location b (N mod b))), e + 1))
    = (if j then shr_1 (shr_record_of_loc q (new_location b (N mod b)))
       else shr_record_of_loc q (new_location b (N mod b)), E)).
  { subst j E. destruct (q <? 2 ^ 53); reflexivity. }
  rewrite Hstage1. clear Hstage1.
  change (round_nearest_even _ _) with m.
  rewrite (shr_fexp_small m E loc_Exact ltac:(lia) ltac:(subst E; destruct j; lia)).
  destruct (Z.ltb_spec m (2 ^ 53)) as [Hlt|Hge].
  - cbn [shr_record_of_loc shr_m].
    destruct (Z.eqb_spec m 0) as [->|Hm0]; [reflexivity|].
    destruct m as [|pm|pm]; try lia.
    replace (E <=? B64.emax - B64.prec) with true; [reflexivity|].
    symmetry. apply Z.leb_le. unfold B64.emax, B64.prec. subst E. destruct j; lia.
  - assert (Hm' : m = 9007199254740992) by (change (m = 2 ^ 53); lia).
    rewrite Hm'. cbn [shr_record_of_loc shr_1 shr_m].
    replace (E + 1 <=? B64.emax - B64.prec) with true; [reflexivity|].
    symmetry. apply Z.leb_le. unfold B64.emax, B64.prec. subst E. destruct j; lia.
Qed.

Ltac zbool :=
  repeat match goal with
  | |- context [?a <? ?b] =>
      first [rewrite (proj2 (Z.ltb_lt a b)) by lia
            |rewrite (proj2 (Z.ltb_ge a b)) by lia]
  | |- context [?a =? ?b] =>
      first [rewrite (proj2 (Z.eqb_eq a b)) by lia
            |rewrite (proj2 (Z.eqb_neq a b)) by lia]
  end; cbn [orb andb].

Lemma round_ge_threshold N b e Mc :
  0 < b -> 0 <= N < 2 ^ 54 * b -> -1074 <= e <= -53 ->
  2 ^ 52 < Mc < 2 ^ 53 -> Z.even Mc = true ->
  SFleb (S754_finite false (Z.to_pos Mc) (-53))
        (binary_round_aux B64.prec B64.emax false (N / b) e (new_location b (N mod b)))
  = ((2 * Mc - 1) * b * 2 ^ (- e - 53) <=? 2 * N).
Proof.
  intros Hb HN He HMc Heven.
  rewrite (binary_round_aux_small false N b e Hb HN ltac:(lia)). cbv zeta.
  set (q := N / b).
  set (j := negb (q <? 2 ^ 53)).
  pose proof (rnd_spec N b j Hb ltac:(lia)) as [Hrnd Hm]. cbv zeta in Hrnd, Hm.
  fold q in Hrnd, Hm.
  specialize (Hrnd Mc Heven).
  set (m := rnd q (new_location b (N mod b)) j) in *. clearbody m.
  assert (Hq : 0 <= q < 2 ^ 54).
  { subst q. split; [apply Z.div_pos; lia|].
    apply Z.div_lt_upper_bound; lia. }
  pose proof (Z.div_mod N b ltac:(lia)) as HNqr. fold q in HNqr.
  pose proof (Z.mod_pos_bound N b Hb) as Hr.
  set (r := N mod b) in *. clearbody r.
  assert (Hjq : if j then 2 ^ 53 <= q else q < 2 ^ 53).
  { subst j. destruct (Z.ltb_spec q (2 ^ 53)); simpl; lia. }
  assert (Hpow : e = -53 /\ 2 ^ (- e - 53) = 1 \/
                 e = -54 /\ 2 ^ (- e - 53) = 2 \/
                 e <= -55 /\ 4 <= 2 ^ (- e - 53)).
  { destruct (Z.eq_dec e (-53)) as [->|]; [left; split; reflexivity|].
    destruct (Z.eq_dec e (-54)) as [->|]; [right; left; split; reflexivity|].
    right; right. split; [lia|].
    change 4 with (2 ^ 2). apply Z.pow_le_mono_r; lia. }
  set (P := 2 ^ (- e - 53)) in *. clearbody P.
  clearbody q. clear HN.
  assert (Hq2 : q = 2 * (q / 2) + q mod 2) by (apply Z.div_mod; lia).
  pose proof (Z.mod_pos_bound q 2 ltac:(lia)) as Hq2b.
  set (h := q / 2) in *. clearbody h.
  set (K := (2 * Mc - 1) * b) in *.
  assert (HK : (2 ^ 53 + 1) * b <= K < 2 ^ 54 * b) by (subst K; nia).
  assert (HKP : K <= K * P /\ (4 <= P -> 4 * K <= K * P)) by nia.
  assert (Hqb : q * b <= N < (q + 1) * b) by nia.
  assert (Hmpos : 0 <= m) by (destruct j; lia).
  destruct (Z.eqb_spec m 0) as [Hm0|Hm0].
  - (* the quotient rounds to zero *)
    change (SFleb _ (S754_zero false)) with false.
    symmetry. apply Z.leb_gt. destruct j; [lia|].
    assert (q = 0) by lia. nia.
  - destruct (Z.ltb_spec m (2 ^ 53)) as [Hlt|Hge]; rewrite leb_finite_pos.
    + rewrite Z2Pos.id by lia. rewrite Z2Pos.id by lia.
      destruct j; destruct Hpow as [[-> HP]|[[-> HP]|[He' HP]]]; zbool.
      * symmetry. apply Z.leb_le. nia.
      * rewrite HP. apply eq_true_iff_eq. rewrite !Z.leb_le.
        rewrite Hrnd. fold K. lia.
      * symmetry. apply Z.leb_gt. nia.
      * rewrite HP. apply eq_true_iff_eq. rewrite !Z.leb_le.
        rewrite Hrnd. fold K. lia.
      * symmetry. apply Z.leb_gt. nia.
      * symmetry. apply Z.leb_gt. nia.
    + (* the rounded mantissa reaches 2^53 and is renormalised *)
      assert (Hm53 : m = 2 ^ 53) by (destruct j; lia).
      replace (Z.pos (Z.to_pos (2 ^ 52))) with (2 ^ 52) by reflexivity.
      rewrite Z2Pos.id by lia.
      replace (Mc <=? 2 ^ 52) with false by (symmetry; apply Z.leb_gt; lia).
      rewrite andb_false_r, orb_false_r.
      assert (HMm : Mc <= m) by lia. apply Hrnd in HMm. fold K in HMm.
      destruct j; destruct Hpow as [[-> HP]|[[-> HP]|[He' HP]]]; zbool.
      * symmetry. apply Z.leb_le. nia.
      * symmetry. apply Z.leb_le. nia.
      * symmetry. apply Z.leb_gt. nia.
      * symmetry. apply Z.leb_le. nia.
      * symmetry. apply Z.leb_gt. nia.
      * symmetry. apply Z.leb_gt. nia.
Qed.

Lemma digits2_pos_mono (a b : positive) :
  (a <= b)%positive -> Zpos (digits2_pos a) <= Zpos (digits2_pos b).
Proof.
  intros Hab. pose proof (Zdigits2_bounds a) as [Ha _].
  pose proof (Zdigits2_bounds b) as [_ Hb].
  destruct (Z_lt_le_dec (Zpos (digits2_pos b)) (Zpos (digits2_pos a))) as [Hlt|]; [|lia].
  exfalso.
  assert (2 ^ Zpos (digits2_pos b) <= 2 ^ (Zpos (digits2_pos a) - 1)).
  { apply Z.pow_le_mono_r; lia. }
  assert (Zpos a <= Zpos b) by (apply Pos2Z.pos_le_pos; exact Hab).
  lia.
Qed.

Lemma SFdiv_core_binary_int (a b : positive) :
  let e := div_exp a b in
  let N := Zpos a * 2 ^ (- e) in
  SFdiv_core_binary B64.prec B64.emax (Zpos a) 0 (Zpos b) 0
  = (N / Zpos b, e, new_location (Zpos b) (N mod Zpos b)).
Proof.
  intros e N. unfold SFdiv_core_binary.
  assert (He : Z.min (fexp B64.prec B64.emax
                        (Zdigits2 (Zpos a) + 0 - (Zdigits2 (Zpos b) + 0))) (0 - 0) = e).
  { subst e. unfold div_exp, fexp, emin, B64.prec, B64.emax. cbn [Zdigits2]. lia. }
  rewrite He.
  assert (Hs : 0 - 0 - e = - e) by lia. rewrite Hs.
  assert (Hneg : 0 <= - e) by (subst e; unfold div_exp; lia).
  assert (Hm' : match - e with
                | 0 => Zpos a
                | Zpos _ => Z.shiftl (Zpos a) (- e)
                | Zneg _ => 0
                end = N).
  { subst N. destruct (- e) as [|s|s] eqn:Hes; try lia.
    rewrite Z.shiftl_mul_pow2 by lia. reflexivity. }
  rewrite Hm'. unfold Z.div, Z.modulo.
  destruct (Z.div_eucl N (Zpos b)) as [q r]. reflexivity.
Qed.

Lemma div_exp_bounds (a b : positive) :
  Zpos a < 2 ^ 53 * Zpos b ->
  let e := div_exp a b in
  -1074 <= e <= 0 /\ 0 <= Zpos a * 2 ^ (- e) < 2 ^ 54 * Zpos b.
Proof.
  intros Hab e.
  pose proof (Zdigits2_bounds a) as [Ha' Ha].
  pose proof (Zdigits2_bounds b) as [Hb Hb'].
  set (d1 := Zpos (digits2_pos a)) in *. set (d2 := Zpos (digits2_pos b)) in *.
  assert (Hd1 : 0 < d1) by (subst d1; lia).
  assert (Hd2 : 0 < d2) by (subst d2; lia).
  assert (Hd : d1 <= d2 + 53).
  { destruct (Z_lt_le_dec (d2 + 53) d1) as [Hlt|]; [exfalso|lia].
    assert (2 ^ (53 + d2) <= 2 ^ (d1 - 1)) by (apply Z.pow_le_mono_r; lia).
    rewrite Z.pow_add_r in H by lia. nia. }
  assert (He : -1074 <= e <= 0 /\ - e <= 53 + d2 - d1).
  { subst e. unfold div_exp. fold d1 d2. lia. }
  split; [lia|]. split; [apply Z.mul_nonneg_nonneg; [lia|apply Z.pow_nonneg; lia]|].
  assert (H1 : 2 ^ (- e) <= 2 ^ (53 + d2 - d1)) by (apply Z.pow_le_mono_r; lia).
  assert (H2 : 2 ^ d1 * 2 ^ (53 + d2 - d1) = 2 ^ 54 * 2 ^ (d2 - 1)).
  { rewrite <- !Z.pow_add_r by lia. f_equal. lia. }
  assert (H3 : 0 < 2 ^ (- e)) by (apply Z.pow_pos_nonneg; lia).
  nia.
Qed.

Lemma div_exp_le (a b : positive) :
  (a <= b)%positive -> div_exp a b <= -53.
Proof.
  intros Hab. pose proof (digits2_pos_mono a b Hab). unfold div_exp. lia.
Qed.

(** The quotient of two positive integers, away from overflow. *)
Lemma div_int_small sa sb (a b : positive) :
  Zpos a < 2 ^ 53 * Zpos b ->
  exists m E,
    B64.div (S754_finite sa a 0) (S754_finite sb b 0)
    = (if m =? 0 then S754_zero (xorb sa sb)
       else S754_finite (xorb sa sb) (Z.to_pos m) E).
Proof.
  intros Hab. unfold B64.div, SFdiv.
  rewrite (SFdiv_core_binary_int a b).
  pose proof (div_exp_bounds a b Hab) as [He HN].
  cbv zeta in He, HN.
  rewrite (binary_round_aux_small (xorb sa sb) _ (Zpos b) (div_exp a b)
             ltac:(lia) HN ltac:(lia)).
  cbv zeta.
  match goal with |- context [rnd ?q ?l ?j] => set (m := rnd q l j) end.
  match goal with |- context [S754_finite _ (Z.to_pos m) ?x] => set (E := x) end.
  destruct (Z.eqb_spec m 0) as [Hm0|Hm0].
  - exists 0, 0. reflexivity.
  - destruct (m <? 2 ^ 53).
    + exists m, E. rewrite (proj2 (Z.eqb_neq m 0) Hm0). reflexivity.
    + exists (2 ^ 52), (E + 1). reflexivity.
Qed.

Theorem div_ge_threshold (a b : positive) (Mc : Z) :
  (a <= b)%positive -> 2 ^ 52 < Mc < 2 ^ 53 -> Z.even Mc = true ->
  B64.geb (B64.div (S754_finite false a 0) (S754_finite false b 0))
          (S754_finite false (Z.to_pos Mc) (-53))
  = ((2 * Mc - 1) * Zpos b <=? 2 ^ 54 * Zpos a).
Proof.
  intros Hab HMc Heven. unfold B64.geb, B64.div, SFdiv.
  rewrite (SFdiv_core_binary_int a b). cbn [xorb].
  assert (Hab' : Zpos a < 2 ^ 53 * Zpos b).
  { apply Pos2Z.pos_le_pos in Hab. lia. }
  pose proof (div_exp_bounds a b Hab') as [He HN].
  pose proof (div_exp_le a b Hab) as He'.
  set (e := div_exp a b) in *. clearbody e.
  rewrite (round_ge_threshold _ (Zpos b) e Mc ltac:(lia) HN ltac:(lia) HMc Heven).
  apply eq_true_iff_eq. rewrite !Z.leb_le.
  assert (HP : 0 < 2 ^ (- e - 53)) by (apply Z.pow_pos_nonneg; lia).
  assert (Hsplit : 2 ^ (- e) = 2 ^ 53 * 2 ^ (- e - 53)).
  { rewrite <- Z.pow_add_r by lia. f_equal. lia. }
  rewrite Hsplit. set (P := 2 ^ (- e - 53)) in *. clearbody P.
  split; intros H; nia.
Qed.

End DivFacts.

(** ** Step functions ascend *)
Section StepMono.
Context {A : Type} (leb : A -> A -> bool).
Hypothesis leb_trans :
  forall x y z, leb x y = true -> leb y z = true -> leb x z = true.

Lemma ascending_refl v rows otherwise :
  ascending leb v rows otherwise = true -> leb v v = true.
Proof. destruct rows as [|[b v'] rows]; simpl; intros H; apply andb_true_iff in H; tauto. Qed.

Lemma step_rows_above v rows otherwise f :
  ascending leb v rows otherwise = true ->
  leb v (step_rows rows otherwise f) = true.
Proof.
  revert v. induction rows as [|[b v'] rows IH]; simpl; intros v Hasc.
  - apply andb_true_iff in Hasc as [_ Hasc].
    apply andb_true_iff in Hasc. tauto.
  - apply andb_true_iff in Hasc as [_ Hasc].
    apply andb_true_iff in Hasc as [Hv Hasc].
    destruct (B64.ltb f b); [exact Hv|].
    eapply leb_trans; [exact Hv|]. apply IH, Hasc.
Qed.

Lemma step_rows_mono v rows otherwise f g :
  ascending leb v rows otherwise = true ->
  B64.leb f g = true ->
  leb (step_rows rows otherwise f) (step_rows rows otherwise g) = true.
Proof.
  intros Hasc Hfg. revert v Hasc.
  induction rows as [|[b v'] rows IH]; simpl; intros v Hasc.
  - apply andb_true_iff in Hasc as [_ Hasc].
    apply andb_true_iff in Hasc. tauto.
  - apply andb_true_iff in Hasc as [_ Hasc].
    apply andb_true_iff in Hasc as [Hv Hasc].
    destruct (B64.ltb g b) eqn:Hg.
    + rewrite (B64Facts.le_lt_trans _ _ _ Hfg Hg).
      eapply ascending_refl, Hasc.
    + destruct (B64.ltb f b).
      * apply step_rows_above, Hasc.
      * apply (IH v'), Hasc.
Qed.

(** With the value at zero on the first row too, and a first bound above
    zero, the whole step function ascends. *)
Lemma step_function_mono at_zero m e rows otherwise f g :
  ascending leb at_zero rows otherwise = true ->
  B64.leb f g = true ->
  let table := (S754_finite false m e, at_zero) :: rows in
  leb (step_function at_zero table otherwise f)
      (step_function at_zero table otherwise g) = true.
Proof.
  intros Hasc Hfg table. unfold step_function.
  assert (Hrows : ascending leb at_zero table otherwise = true).
  { simpl. rewrite (ascending_refl _ _ _ Hasc), Hasc. reflexivity. }
  destruct (B64.eqb g B64.zero) eqn:Hg, (B64.eqb f B64.zero) eqn:Hf.
  - eapply ascending_refl, Hasc.
  - pose proof (B64Facts.eqb_zero_leb _ _ Hfg Hg) as Hf0.
    assert (Hlt : B64.ltb f (S754_finite false m e) = true).
    { revert Hf Hf0. unfold B64.eqb, B64.leb, B64.ltb, SFeqb, SFleb, SFltb, B64.zero.
      destruct f as [[]|[]| |[] mf ef]; simpl; congruence. }
    simpl. rewrite Hlt. eapply ascending_refl, Hasc.
  - apply step_rows_above, Hrows.
  - eapply step_rows_mono; eassumption.
Qed.

End StepMono.

(** ** The literals

    Each constant is the binary64 number nearest to its decimal literal. *)
Lemma literals_nearest :
  forallb (fun '(x, num, den) => B64.nearest x num den)
    [(f_1e_7, 1, 10 ^ 7); (f_5e_7, 5, 10 ^ 7); (f_1e_6, 1, 10 ^ 6);
     (f_5e_6, 5, 10 ^ 6); (f_1e_5, 1, 10 ^ 5); (f_5e_5, 5, 10 ^ 5);
     (f_1e_4, 1, 10 ^ 4); (f_5e_4, 5, 10 ^ 4); (f_1e_3, 1, 10 ^ 3);
     (f_5e_3, 5, 10 ^ 3); (f_1e_2, 1, 10 ^ 2);
     (f_1_0, 1, 1); (f_1_5, 3, 2); (f_2_0, 2, 1); (f_2_5, 5, 2);
     (f_3_0, 3, 1); (f_4_0, 4, 1); (f_5_0, 5, 1); (f_6_0, 6, 1);
     (f_7_0, 7, 1); (f_8_0, 8, 1); (f_9_0, 9, 1); (f_10_0, 10, 1);
     (f_0_96875, 31, 32); (f_0_90625, 29, 32); (f_0_78125, 25, 32);
     (f_0_53125, 17, 32)]
  = true.
Proof. vm_compute. reflexivity. Qed.

(** ** The flat scale *)

(** The bands of the flat scale as intervals. *)
Lemma flat_scale_bands (f : float) :
  B64.is_nan f = false ->
  let s := Flat.convert_frequency_to_scale f in
  (s = 1 <-> B64.eqb f B64.zero = true \/ B64.ltb f f_1e_6 = true) /\
  (s = 2 <-> B64.geb f f_1e_6 = true /\ B64.ltb f f_1e_5 = true) /\
  (s = 3 <-> B64.geb f f_1e_5 = true /\ B64.ltb f f_1e_4 = true) /\
  (s = 4 <-> B64.geb f f_1e_4 = true /\ B64.ltb f f_1e_3 = true) /\
  (s = 5 <-> B64.geb f f_1e_3 = true).
Proof.
  intros Hnan s. subst s. unfold Flat.convert_frequency_to_scale.
  pose proof (B64Facts.eqb_zero_lt_pos f 4722366482869645 (-72)) as Hz.
  fold f_1e_6 in Hz.
  pose proof (B64Facts.ltb_false_geb f f_1e_6 Hnan eq_refl) as H6.
  pose proof (B64Facts.ltb_false_geb f f_1e_5 Hnan eq_refl) as H5.
  pose proof (B64Facts.ltb_false_geb f f_1e_4 Hnan eq_refl) as H4.
  pose proof (B64Facts.ltb_false_geb f f_1e_3 Hnan eq_refl) as H3.
  pose proof (fun L => B64Facts.lt_trans f f_1e_6 f_1e_5 L eq_refl) as T65.
  pose proof (fun L => B64Facts.lt_trans f f_1e_5 f_1e_4 L eq_refl) as T54.
  pose proof (fun L => B64Facts.lt_trans f f_1e_4 f_1e_3 L eq_refl) as T43.
  destruct (B64.eqb f B64.zero), (B64.ltb f f_1e_6), (B64.ltb f f_1e_5),
    (B64.ltb f f_1e_4), (B64.ltb f f_1e_3),
    (B64.geb f f_1e_6), (B64.geb f f_1e_5), (B64.geb f f_1e_4), (B64.geb f f_1e_3);
    simpl in *;
    try discriminate; try (specialize (Hz eq_refl)); try (specialize (T65 eq_refl));
    try (specialize (T54 eq_refl)); try (specialize (T43 eq_refl));
    try discriminate; intuition (try discriminate; try lia; auto).
Qed.

Lemma flat_step_unfold (f : float) :
  flat_step f =
  step_function 1 [(f_1e_6, 1); (f_1e_5, 2); (f_1e_4, 3); (f_1e_3, 4)] 5 f.
Proof. reflexivity. Qed.

Lemma convert_frequency_to_scale_range (f : float) :
  1 <= Flat.convert_frequency_to_scale f <= 5.
Proof.
  unfold Flat.convert_frequency_to_scale.
  repeat match goal with |- context [if ?b then _ else _] => destruct b end; lia.
Qed.

(** C1: the flat scale is in 1..5, is the step function of the
    specification, and never decreases when the frequency increases. *)
Theorem convert_frequency_to_scale_step (f : float) :
  let s := Flat.convert_frequency_to_scale f in
  1 <= s <= 5 /\
  s = flat_step f /\
  forall g, B64.leb f g = true -> s <= Flat.convert_frequency_to_scale g.
Proof.
  assert (Hstep : forall x, Flat.convert_frequency_to_scale x = flat_step x).
  { intros x. rewrite flat_step_unfold. reflexivity. }
  cbv zeta. split; [|split].
  - apply convert_frequency_to_scale_range.
  - apply Hstep.
  - intros g Hfg. rewrite !Hstep, !flat_step_unfold. apply Z.leb_le.
    apply (step_function_mono Z.leb); [|reflexivity|exact Hfg].
    intros x y z Hxy Hyz. apply Z.leb_le. apply Z.leb_le in Hxy, Hyz. lia.
Qed.

Lemma convert_frequency_to_scale_step_witness :
  Flat.convert_frequency_to_scale (B64.lit 5 (-7))
  <= Flat.convert_frequency_to_scale (B64.lit 3 (-3)).
Proof.
  apply (proj2 (proj2 (convert_frequency_to_scale_step (B64.lit 5 (-7))))).
  vm_compute. reflexivity.
Defined.

(** C5, as stated, fails: the four boundary values do not map to the scale
    of the lower bucket. *)
Lemma boundary_lower_bucket_fails :
  ~ (Flat.convert_frequency_to_scale (B64.lit 1 (-6)) = 1 /\
     Flat.convert_frequency_to_scale (B64.lit 1 (-5)) = 2 /\
     Flat.convert_frequency_to_scale (B64.lit 1 (-4)) = 3 /\
     Flat.convert_frequency_to_scale (B64.lit 1 (-3)) = 4).
Proof. vm_compute. intros [H _]. discriminate H. Qed.

(** C5, amended: with the strict comparisons, each boundary value 1e-6,
    1e-5, 1e-4, 1e-3 maps to the scale of the upper bucket: 2, 3, 4, 5. *)
Theorem boundary_upper_bucket :
  Flat.convert_frequency_to_scale (B64.lit 1 (-6)) = 2 /\
  Flat.convert_frequency_to_scale (B64.lit 1 (-5)) = 3 /\
  Flat.convert_frequency_to_scale (B64.lit 1 (-4)) = 4 /\
  Flat.convert_frequency_to_scale (B64.lit 1 (-3)) = 5.
Proof. vm_compute. repeat split. Qed.

(** ** The detailed scale *)

Lemma detailed_step_unfold (f : float) :
  detailed_step f =
  step_function f_1_0
    [(f_1e_7, f_1_0); (f_5e_7, f_1_5); (f_1e_6, f_2_0); (f_5e_6, f_2_5);
     (f_1e_5, f_3_0); (f_5e_5, f_4_0); (f_1e_4, f_5_0); (f_5e_4, f_6_0);
     (f_1e_3, f_7_0); (f_5e_3, f_8_0); (f_1e_2, f_9_0)]
    f_10_0 f.
Proof. reflexivity. Qed.

Lemma detailed_values_unfold :
  detailed_values =
  [f_1_0; f_1_5; f_2_0; f_2_5; f_3_0; f_4_0; f_5_0; f_6_0; f_7_0; f_8_0;
   f_9_0; f_10_0].
Proof. reflexivity. Qed.

Lemma convert_frequency_to_detailed_scale_range (f : float) :
  In (Tiered.convert_frequency_to_detailed_scale f) detailed_values.
Proof.
  rewrite detailed_values_unfold.
  unfold Tiered.convert_frequency_to_detailed_scale.
  repeat match goal with |- context [if ?b then _ else _] => destruct b end;
    simpl; tauto.
Qed.

(** C2: the detailed scale takes one of the twelve values, is the step
    function of the specification, and never decreases when the frequency
    increases. *)
Theorem convert_frequency_to_detailed_scale_step (f : float) :
  let s := Tiered.convert_frequency_to_detailed_scale f in
  In s detailed_values /\
  s = detailed_step f /\
  forall g, B64.leb f g = true ->
            B64.leb s (Tiered.convert_frequency_to_detailed_scale g) = true.
Proof.
  assert (Hstep : forall x,
             Tiered.convert_frequency_to_detailed_scale x = detailed_step x).
  { intros x. rewrite detailed_step_unfold. reflexivity. }
  cbv zeta. split; [|split].
  - apply convert_frequency_to_detailed_scale_range.
  - apply Hstep.
  - intros g Hfg. rewrite !Hstep, !detailed_step_unfold.
    apply (step_function_mono B64.leb B64Facts.le_trans);
      [reflexivity|exact Hfg].
Qed.

Lemma convert_frequency_to_detailed_scale_step_witness :
  B64.leb (Tiered.convert_frequency_to_detailed_scale (B64.lit 5 (-7)))
          (Tiered.convert_frequency_to_detailed_scale (B64.lit 3 (-3))) = true.
Proof.
  apply (proj2 (proj2 (convert_frequency_to_detailed_scale_step (B64.lit 5 (-7))))).
  vm_compute. reflexivity.
Defined.

(** ** The five-word example *)

(** C6, as stated, fails. *)
Lemma five_word_example_fails :
  ~ (map Flat.convert_frequency_to_scale example_frequencies = [5; 4; 3; 2; 1] /\
     map Tiered.convert_frequency_to_detailed_scale example_frequencies
     = [B64.lit 100 (-1); B64.lit 80 (-1); B64.lit 40 (-1); B64.lit 15 (-1);
        B64.lit 10 (-1)] /\
     map (fun r => Tiered.convert_to_user_scale_by_rank r 5) [1; 2; 3; 4; 5]
     = [Ok 5; Ok 3; Ok 2; Ok 1; Ok 1]).
Proof. vm_compute. intros [H _]. discriminate H. Qed.

(** C6, amended: for the raw frequencies 0.02, 0.003, 0.00005, 0.0000005, 0
    the flat scale gives 5, 5, 3, 1, 1 and the detailed scale gives 10.0,
    8.0, 5.0, 2.0, 1.0; with a total of 5 the rank scale gives 5, 3, 2, 1, 1
    for the ranks 1 to 5. *)
Theorem five_word_example :
  map Flat.convert_frequency_to_scale example_frequencies = [5; 5; 3; 1; 1] /\
  map Tiered.convert_frequency_to_detailed_scale example_frequencies
  = [B64.lit 100 (-1); B64.lit 80 (-1); B64.lit 50 (-1); B64.lit 20 (-1);
     B64.lit 10 (-1)] /\
  map (fun r => Tiered.convert_to_user_scale_by_rank r 5) [1; 2; 3; 4; 5]
  = [Ok 5; Ok 3; Ok 2; Ok 1; Ok 1].
Proof. vm_compute. repeat split. Qed.

(** ** The rank scale *)

Lemma int_truediv_small (a b : Z) :
  b <> 0 -> Z.abs a < 2 ^ 53 * Z.abs b ->
  int_truediv a b = Ok (B64.of_ratio a b).
Proof.
  intros Hb Hab. unfold int_truediv.
  rewrite (proj2 (Z.eqb_neq b 0) Hb).
  destruct a as [|a|a], b as [|b|b]; try lia; try reflexivity;
    unfold B64.of_ratio, B64.of_int;
    match goal with
    | |- context [B64.div (S754_finite ?sa a 0) (S754_finite ?sb b 0)] =>
        destruct (DivFacts.div_int_small sa sb a b ltac:(lia)) as (m & E & ->)
    end;
    destruct (m =? 0); reflexivity.
Qed.

Lemma geb_of_ratio (a b Mc : Z) :
  1 <= a <= b -> 2 ^ 52 < Mc < 2 ^ 53 -> Z.even Mc = true ->
  B64.geb (B64.of_ratio a b) (S754_finite false (Z.to_pos Mc) (-53))
  = ((2 * Mc - 1) * b <=? 2 ^ 54 * a).
Proof.
  intros Hab HMc Heven. destruct a as [|a|a], b as [|b|b]; try lia.
  apply DivFacts.div_ge_threshold; [|exact HMc|exact Heven].
  apply Pos2Z.pos_le_pos. lia.
Qed.

(** On its domain the rank scale is the cascade on the rounded percentile. *)
Lemma convert_to_user_scale_by_rank_rounded (r T : Z) :
  1 <= r <= T ->
  Tiered.convert_to_user_scale_by_rank r T = Ok (rank_scale_rounded r T).
Proof.
  intros Hr. unfold Tiered.convert_to_user_scale_by_rank.
  rewrite int_truediv_small by lia. cbn [mbind result_bind].
  unfold rank_scale_rounded. cbv zeta.
  change f_0_96875 with (S754_finite false (Z.to_pos (31 * 2 ^ 48)) (-53)).
  change f_0_90625 with (S754_finite false (Z.to_pos (29 * 2 ^ 48)) (-53)).
  change f_0_78125 with (S754_finite false (Z.to_pos (25 * 2 ^ 48)) (-53)).
  change f_0_53125 with (S754_finite false (Z.to_pos (17 * 2 ^ 48)) (-53)).
  rewrite !geb_of_ratio by (try reflexivity; lia).
  change (2 * (31 * 2 ^ 48) - 1) with (31 * 2 ^ 49 - 1).
  change (2 * (29 * 2 ^ 48) - 1) with (29 * 2 ^ 49 - 1).
  change (2 * (25 * 2 ^ 48) - 1) with (25 * 2 ^ 49 - 1).
  change (2 * (17 * 2 ^ 48) - 1) with (17 * 2 ^ 49 - 1).
  repeat match goal with |- context [if ?c then _ else _] => destruct c end;
    reflexivity.
Qed.

Lemma rank_scale_rounded_exact (r T : Z) :
  1 <= T < 2 ^ 49 -> rank_scale_rounded r T = rank_scale_exact r T.
Proof.
  intros HT. unfold rank_scale_rounded, rank_scale_exact. cbv zeta.
  repeat match goal with
         | |- context [?x <=? ?y] => destruct (Z.leb_spec x y)
         end; try reflexivity; lia.
Qed.

(** C3, as stated, fails: of the 64 ranks of a total of 64, 33 score 1, 16
    score 2, 8 score 3, 4 score 4 and 3 score 5, which is not 32, 16, 8, 4
    and 2. *)
Lemma bands_16_8_4_2_1_fail :
  map (band_count 64) [1; 2; 3; 4; 5] = [33; 16; 8; 4; 3] /\
  ~ bands_16_8_4_2_1 64.
Proof.
  assert (H1 : band_count 64 1 = 33) by (vm_compute; reflexivity).
  assert (H2 : band_count 64 2 = 16) by (vm_compute; reflexivity).
  assert (H3 : band_count 64 3 = 8) by (vm_compute; reflexivity).
  assert (H4 : band_count 64 4 = 4) by (vm_compute; reflexivity).
  assert (H5 : band_count 64 5 = 3) by (vm_compute; reflexivity).
  split.
  - cbn [map]. rewrite H1, H2, H3, H4, H5. reflexivity.
  - unfold bands_16_8_4_2_1. rewrite H1. lia.
Qed.

(** Beyond 2^49 words the rounding of the percentile shows: with a total of
    2^54, the rank 2^49 + 2 has the exact percentile 31/32 - 2^-54, which is
    rounded to 31/32. *)
Lemma rank_scale_rounding_example :
  Tiered.convert_to_user_scale_by_rank (2 ^ 49 + 2) (2 ^ 54) = Ok 5 /\
  rank_scale_exact (2 ^ 49 + 2) (2 ^ 54) = 4.
Proof. vm_compute. split; reflexivity. Qed.

(** C3, amended: for a total T >= 1 and a rank r in [1,T] the rank scale
    returns the cascade on the binary64 percentile (T - r + 1) / T, an
    integer in 1..5 that never increases with the rank; and for T < 2^49 it
    is the cascade on the exact percentile, so that the score is 5 when
    32(r-1) <= T, 4 when T < 32(r-1) <= 3T, 3 when 3T < 32(r-1) <= 7T, 2
    when 7T < 32(r-1) <= 15T and 1 when 15T < 32(r-1): bands of 1, 2, 4 and
    8 thirty-seconds from the top, the remaining 17 thirty-seconds score 1. *)
Theorem convert_to_user_scale_by_rank_bands (T r : Z) :
  1 <= T -> 1 <= r <= T ->
  let percentile := B64.of_ratio (T - r + 1) T in
  exists s,
    Tiered.convert_to_user_scale_by_rank r T = Ok s /\
    s = (if B64.geb percentile (B64.lit 96875 (-5)) then 5
         else if B64.geb percentile (B64.lit 90625 (-5)) then 4
         else if B64.geb percentile (B64.lit 78125 (-5)) then 3
         else if B64.geb percentile (B64.lit 53125 (-5)) then 2
         else 1) /\
    1 <= s <= 5 /\
    (forall r', r <= r' <= T ->
       exists s', Tiered.convert_to_user_scale_by_rank r' T = Ok s' /\ s' <= s) /\
    (T < 2 ^ 49 ->
       s = rank_scale_exact r T /\
       (s = 5 <-> 32 * (r - 1) <= T) /\
       (s = 4 <-> T < 32 * (r - 1) <= 3 * T) /\
       (s = 3 <-> 3 * T < 32 * (r - 1) <= 7 * T) /\
       (s = 2 <-> 7 * T < 32 * (r - 1) <= 15 * T) /\
       (s = 1 <-> 15 * T < 32 * (r - 1))).
Proof.
  intros HT Hr percentile. exists (rank_scale_rounded r T).
  split; [apply convert_to_user_scale_by_rank_rounded; exact Hr|].
  split; [|split; [|split]].
  - pose proof (convert_to_user_scale_by_rank_rounded r T Hr) as H.
    unfold Tiered.convert_to_user_scale_by_rank in H.
    rewrite int_truediv_small in H by lia. cbn [mbind result_bind] in H.
    fold percentile in H.
    change (B64.lit 96875 (-5)) with f_0_96875.
    change (B64.lit 90625 (-5)) with f_0_90625.
    change (B64.lit 78125 (-5)) with f_0_78125.
    change (B64.lit 53125 (-5)) with f_0_53125.
    repeat match goal with
           | H : context [if ?c then _ else _] |- _ => destruct c
           end; injection H as <-; reflexivity.
  - unfold rank_scale_rounded. cbv zeta.
    repeat match goal with |- context [if ?c then _ else _] => destruct c end; lia.
  - intros r' Hr'. exists (rank_scale_rounded r' T).
    split; [apply convert_to_user_scale_by_rank_rounded; lia|].
    unfold rank_scale_rounded. cbv zeta.
    repeat match goal with
           | |- context [?x <=? ?y] => destruct (Z.leb_spec x y)
           end; lia.
  - intros HT'. rewrite rank_scale_rounded_exact by lia.
    split; [reflexivity|].
    unfold rank_scale_exact. cbv zeta.
    repeat match goal with
           | |- context [?x <=? ?y] => destruct (Z.leb_spec x y)
           end; lia.
Qed.

Lemma convert_to_user_scale_by_rank_bands_witness :
  exists s, Tiered.convert_to_user_scale_by_rank 2 5 = Ok s /\ 1 <= s <= 5.
Proof.
  destruct (convert_to_user_scale_by_rank_bands 5 2 ltac:(lia) ltac:(lia))
    as (s & Hs & _ & Hrange & _).
  exists s. split; [exact Hs|exact Hrange].
Defined.

(** ** The scale functions outside their domains *)

Lemma binary_round_aux_sign sx m e l :
  match binary_round_aux B64.prec B64.emax sx m e l with
  | S754_zero s | S754_infinity s | S754_finite s _ _ => s = sx
  | S754_nan => True
  end.
Proof.
  unfold binary_round_aux.
  destruct (shr_fexp B64.prec B64.emax m e l) as [mrs' e'].
  destruct (shr_fexp B64.prec B64.emax _ e' loc_Exact) as [mrs'' e''].
  destruct (shr_m mrs''); [reflexivity| |exact I].
  destruct (e'' <=? B64.emax - B64.prec); reflexivity.
Qed.

(** A quotient that is not positive is below every positive threshold. *)
Lemma of_ratio_nonpos_geb (a b : Z) m e :
  a <= 0 -> 0 < b ->
  B64.geb (B64.of_ratio a b) (S754_finite false m e) = false.
Proof.
  intros Ha Hb. destruct a as [|a|a], b as [|b|b]; try lia; try reflexivity.
  unfold B64.of_ratio, B64.of_int, B64.div, SFdiv.
  destruct (SFdiv_core_binary B64.prec B64.emax (Z.pos a) 0 (Z.pos b) 0)
    as [[mz ez] lz].
  cbn [xorb].
  pose proof (binary_round_aux_sign true mz ez lz) as Hs.
  destruct (binary_round_aux B64.prec B64.emax true mz ez lz) as [s|s| |s m' e'];
    try subst s; reflexivity.
Qed.

Lemma convert_to_user_scale_by_rank_cases (r T : Z) :
  T <> 0 ->
  Tiered.convert_to_user_scale_by_rank r T = Raise OverflowError \/
  exists s, Tiered.convert_to_user_scale_by_rank r T = Ok s /\ 1 <= s <= 5.
Proof.
  intros HT. unfold Tiered.convert_to_user_scale_by_rank, int_truediv.
  rewrite (proj2 (Z.eqb_neq T 0) HT).
  destruct (B64.of_ratio (T - r + 1) T) eqn:Hq; cbn [mbind result_bind];
    try (left; reflexivity); right;
    repeat match goal with |- context [if ?c then _ else _] => destruct c end;
    eexists; (split; [reflexivity|lia]).
Qed.

(** C10, as stated, fails: with the total -5 the rank 0 is above the total
    and scores 3. *)
Lemma rank_above_negative_total :
  Tiered.convert_to_user_scale_by_rank 0 (-5) = Ok 3 /\
  ~ (forall rank total,
       total <> 0 -> total < rank ->
       Tiered.convert_to_user_scale_by_rank rank total = Ok 1).
Proof.
  assert (H : Tiered.convert_to_user_scale_by_rank 0 (-5) = Ok 3)
    by (vm_compute; reflexivity).
  split; [exact H|]. intros Hall.
  specialize (Hall 0 (-5) ltac:(lia) ltac:(lia)). congruence.
Qed.

(** Nor is the rank scale total on the integers: a quotient beyond the
    binary64 range raises [OverflowError]. *)
Lemma rank_scale_overflow :
  Tiered.convert_to_user_scale_by_rank (- 2 ^ 1100) 1 = Raise OverflowError /\
  Tiered.convert_to_user_scale_by_rank (2 ^ 1100) 1 = Raise OverflowError.
Proof. vm_compute. split; reflexivity. Qed.

(** C10, amended: for every binary64 frequency, also negative, above 1,
    infinite or NaN, the flat scale is in 1..5 and the detailed scale is one
    of its twelve values, a negative frequency giving 1 and 1.0.  For every
    integer rank and nonzero total the rank scale raises [OverflowError] or
    returns an integer in 1..5, and it returns one when
    |total - rank + 1| < 2^53 * |total|.  With a positive total, a rank above
    the total gives 1 (or [OverflowError], not below 2^53 * total). *)
Theorem scale_functions_total :
  (forall f : float,
     1 <= Flat.convert_frequency_to_scale f <= 5 /\
     In (Tiered.convert_frequency_to_detailed_scale f) detailed_values /\
     (B64.ltb f B64.zero = true ->
      Flat.convert_frequency_to_scale f = 1 /\
      Tiered.convert_frequency_to_detailed_scale f = B64.lit 10 (-1))) /\
  (forall rank total : Z,
     total <> 0 ->
     (Tiered.convert_to_user_scale_by_rank rank total = Raise OverflowError \/
      exists s, Tiered.convert_to_user_scale_by_rank rank total = Ok s /\
                1 <= s <= 5) /\
     (Z.abs (total - rank + 1) < 2 ^ 53 * Z.abs total ->
      exists s, Tiered.convert_to_user_scale_by_rank rank total = Ok s /\
                1 <= s <= 5)) /\
  (forall rank total : Z,
     0 < total < rank ->
     (Tiered.convert_to_user_scale_by_rank rank total = Ok 1 \/
      Tiered.convert_to_user_scale_by_rank rank total = Raise OverflowError) /\
     (rank - total - 1 < 2 ^ 53 * total ->
      Tiered.convert_to_user_scale_by_rank rank total = Ok 1)).
Proof.
  split; [|split].
  - intros f. split; [|split].
    + apply (convert_frequency_to_scale_range f).
    + apply (convert_frequency_to_detailed_scale_range f).
    + intros Hneg.
      assert (Hz : B64.eqb f B64.zero = false).
      { revert Hneg. unfold B64.ltb, B64.eqb, SFltb, SFeqb.
        destruct (SFcompare f B64.zero) as [[]|]; congruence. }
      assert (H6 : B64.ltb f f_1e_6 = true)
        by (apply (B64Facts.lt_trans f B64.zero); [exact Hneg|reflexivity]).
      assert (H7 : B64.ltb f f_1e_7 = true)
        by (apply (B64Facts.lt_trans f B64.zero); [exact Hneg|reflexivity]).
      unfold Flat.convert_frequency_to_scale,
        Tiered.convert_frequency_to_detailed_scale.
      rewrite Hz, H6, H7. split; reflexivity.
  - intros r T HT. split; [apply convert_to_user_scale_by_rank_cases, HT|].
    intros Hsmall.
    destruct (convert_to_user_scale_by_rank_cases r T HT) as [Hov|Hok];
      [|exact Hok].
    exfalso. revert Hov. unfold Tiered.convert_to_user_scale_by_rank.
    rewrite int_truediv_small by assumption. cbn [mbind result_bind].
    repeat match goal with |- context [if ?c then _ else _] => destruct c end;
      discriminate.
  - intros r T HT.
    assert (Hcases : forall x,
               int_truediv (T - r + 1) T = Ok x ->
               Tiered.convert_to_user_scale_by_rank r T = Ok 1).
    { intros x Hx. unfold Tiered.convert_to_user_scale_by_rank.
      rewrite Hx. cbn [mbind result_bind].
      assert (x = B64.of_ratio (T - r + 1) T) as ->.
      { revert Hx. unfold int_truediv. destruct (T =? 0); [discriminate|].
        destruct (B64.of_ratio (T - r + 1) T); congruence. }
      unfold f_0_96875, f_0_90625, f_0_78125, f_0_53125.
      rewrite !of_ratio_nonpos_geb by lia. reflexivity. }
    split.
    + destruct (int_truediv (T - r + 1) T) as [x|e] eqn:Hdiv.
      * left. apply (Hcases x). reflexivity.
      * right. unfold Tiered.convert_to_user_scale_by_rank. rewrite Hdiv.
        cbn [mbind result_bind]. f_equal.
        revert Hdiv. unfold int_truediv.
        rewrite (proj2 (Z.eqb_neq T 0)) by lia.
        destruct (B64.of_ratio (T - r + 1) T); congruence.
    + intros Hsmall. apply (Hcases (B64.of_ratio (T - r + 1) T)).
      apply int_truediv_small; lia.
Qed.

Lemma scale_functions_total_witness :
  Tiered.convert_to_user_scale_by_rank 7 5 = Ok 1.
Proof.
  apply (proj2 (proj2 (proj2 scale_functions_total) 7 5 ltac:(lia))).
  vm_compute. reflexivity.
Defined.

(** ** The size detection *)
Section Probe.
Context `{Wordfreq}.

(** The loop stops at the first probe that fails or answers short; every
    probe before it was answered in full. *)
Lemma probe_sizes_split (language_code : string) (sizes : list Z) (fallback : Z) :
  exists done rest,
    sizes = done ++ rest /\
    Forall (fun size => exists ws, top_n_list language_code size = Ok ws /\
                                   size <= len ws) done /\
    ((exists size rest' ws,
        rest = size :: rest' /\
        top_n_list language_code size = Ok ws /\ len ws < size /\
        probe_sizes language_code sizes fallback = len ws) \/
     ((rest = [] \/
       exists size rest' e,
         rest = size :: rest' /\ top_n_list language_code size = Raise e) /\
      ((done = [] /\ probe_sizes language_code sizes fallback = fallback) \/
       (exists done' size ws,
          done = done' ++ [size] /\
          top_n_list language_code size = Ok ws /\
          probe_sizes language_code sizes fallback = len ws)))).
Proof.
  revert fallback. induction sizes as [|size sizes IH]; intros fallback.
  - exists [], []. split; [reflexivity|]. split; [constructor|].
    right. split; [left; reflexivity|]. left. split; reflexivity.
  - cbn [probe_sizes].
    destruct (top_n_list language_code size) as [ws|e] eqn:Hprobe.
    + destruct (Z.ltb_spec (len ws) size) as [Hshort|Hfull].
      * exists [], (size :: sizes). split; [reflexivity|].
        split; [constructor|]. left. exists size, sizes, ws. auto.
      * destruct (IH (len ws)) as (done & rest & -> & Hdone & Hrest).
        exists (size :: done), rest. split; [reflexivity|].
        split; [constructor; [exists ws; auto|exact Hdone]|].
        destruct Hrest as [Hshort|[Hend Hlast]]; [left; exact Hshort|].
        right. split; [exact Hend|]. right.
        destruct Hlast as [[-> Hp]|(done' & size' & ws' & -> & Hs' & Hp)].
        -- exists [], size, ws. auto.
        -- exists (size :: done'), size', ws'. auto.
    + exists [], (size :: sizes). split; [reflexivity|].
      split; [constructor|]. right.
      split; [right; exists size, sizes, e; auto|]. left. auto.
Qed.

(** Against a source that answers [min N size], ascending candidates
    reaching [N] detect [N]. *)
Lemma probe_sizes_mock (language_code : string) (N : Z) (sizes : list Z)
    (fallback : Z) :
  StronglySorted Z.le sizes ->
  (forall size, In size sizes ->
     exists ws, top_n_list language_code size = Ok ws /\ len ws = Z.min N size) ->
  (sizes = [] /\ fallback = N) \/ (exists size, In size sizes /\ N <= size) ->
  probe_sizes language_code sizes fallback = N.
Proof.
  revert fallback. induction sizes as [|size sizes IH];
    intros fallback Hsorted Hmock Hreach.
  - destruct Hreach as [[_ ->]|(size & [] & _)]. reflexivity.
  - destruct Hreach as [[Hnil _]|(s & Hs & HNs)]; [discriminate|].
    apply StronglySorted_inv in Hsorted as [Hsorted Hle].
    cbn [probe_sizes].
    destruct (Hmock size (or_introl eq_refl)) as (ws & -> & Hlen).
    rewrite Hlen.
    destruct (Z.ltb_spec (Z.min N size) size) as [Hshort|Hfull]; [lia|].
    apply IH; [exact Hsorted|intros s' Hs'; apply Hmock; right; exact Hs'|].
    destruct Hs as [<-|Hs]; [|right; exists s; auto].
    destruct sizes as [|s' sizes]; [left; split; [reflexivity|lia]|].
    right. exists s'. split; [left; reflexivity|].
    apply Forall_cons in Hle as [Hle _]. lia.
Qed.

Lemma test_sizes_sorted : StronglySorted Z.le test_sizes.
Proof. repeat constructor; lia. Qed.

(** C8: the size detection tries 100000, ..., 500000 in order; it returns
    the first count below its request, else the count of the last probe
    answered, which is the largest count when the source never returns
    more than is asked for, else 50000; against a source that returns
    min(N, requested) words it returns N whenever some candidate is at
    least N. *)
Theorem probe_max_words_spec (language_code : string) :
  let P := probe_max_words language_code in
  (exists done rest,
     [100000; 200000; 300000; 400000; 500000] = done ++ rest /\
     Forall (fun size => exists ws, top_n_list language_code size = Ok ws /\
                                    size <= len ws) done /\
     ((exists size rest' ws,
         rest = size :: rest' /\
         top_n_list language_code size = Ok ws /\ len ws < size /\ P = len ws) \/
      ((rest = [] \/
        exists size rest' e,
          rest = size :: rest' /\ top_n_list language_code size = Raise e) /\
       ((done = [] /\ P = 50000) \/
        (exists done' size ws,
           done = done' ++ [size] /\
           top_n_list language_code size = Ok ws /\ P = len ws /\
           ((forall size' ws', top_n_list language_code size' = Ok ws' ->
                               len ws' <= size') ->
            forall size' ws', In size' done ->
                              top_n_list language_code size' = Ok ws' ->
                              len ws' <= P)))))) /\
  (forall N,
     0 <= N ->
     (forall size, In size test_sizes ->
        exists ws, top_n_list language_code size = Ok ws /\
                   len ws = Z.min N size) ->
     (exists size, In size test_sizes /\ N <= size) ->
     P = N).
Proof.
  intros P. split.
  - destruct (probe_sizes_split language_code test_sizes 50000)
      as (done & rest & Hsplit & Hdone & Hrest).
    exists done, rest. split; [exact Hsplit|]. split; [exact Hdone|].
    destruct Hrest as [Hshort|[Hend Hlast]]; [left; exact Hshort|].
    right. split; [exact Hend|].
    destruct Hlast as [Hnone|(done' & size & ws & -> & Hs & HP)];
      [left; exact Hnone|].
    right. exists done', size, ws. repeat split; [exact Hs|exact HP|].
    intros Hbounded size' ws' Hin Hs'. subst P. unfold probe_max_words. rewrite HP.
    pose proof test_sizes_sorted as Hsorted. rewrite Hsplit in Hsorted.
    apply StronglySorted_app_1_l in Hsorted.
    assert (Hle : size' <= size).
    { apply in_app_or in Hin as [Hin|[<-|[]]]; [|lia].
      apply (StronglySorted_app_1_elem_of Z.le done' [size] size' size Hsorted).
      - apply list_elem_of_In, Hin.
      - apply list_elem_of_In. left. reflexivity. }
    rewrite Forall_forall in Hdone.
    destruct (Hdone size) as (ws0 & Hws0 & Hfull).
    { apply list_elem_of_In, in_or_app. right. left. reflexivity. }
    rewrite Hs in Hws0. injection Hws0 as <-.
    specialize (Hbounded size' ws' Hs'). lia.
  - intros N HN Hmock Hreach.
    apply (probe_sizes_mock language_code N test_sizes 50000
             test_sizes_sorted Hmock).
    right. exact Hreach.
Qed.

End Probe.

Lemma probe_max_words_spec_witness :
  probe_max_words (H := mock_wordfreq ["the"; "of"; "and"] []) "en" = 3.
Proof.
  apply (proj2 (probe_max_words_spec (H := mock_wordfreq ["the"; "of"; "and"] [])
                  "en") 3).
  - lia.
  - intros size Hin. exists (take (Z.to_nat size) ["the"; "of"; "and"]).
    split; [reflexivity|].
    destruct Hin as [<-|[<-|[<-|[<-|[<-|[]]]]]]; vm_compute; reflexivity.
  - exists 100000. split; [left; reflexivity|lia].
Defined.

(** ** The tiers *)
Section Tiers.
Context `{Wordfreq}.
Variable max_words : Z.

Local Abbreviation b := (tier_limits max_words).
Local Abbreviation filled := tiers_filled.
Local Abbreviation entries := tier_entries.

Lemma len_nil_inv {A} (l : list A) : len l = 0 -> l = [].
Proof. destruct l; [reflexivity|]. unfold len. simpl. lia. Qed.

Lemma len_snoc {A} (l : list A) (x : A) : len (l ++ [x]) = len l + 1.
Proof. unfold len. rewrite length_app. simpl. lia. Qed.

Lemma append_to_tier_filled (i : Z) (e : Tiered.word_entry) (ts : Tiered.tiers) :
  0 <= i -> filled i ts ->
  filled (i + 1) (Tiered.append_to_tier b i e ts) /\
  entries (Tiered.append_to_tier b i e ts) = entries ts ++ [e].
Proof.
  intros Hi (Hc & He & Hk).
  unfold Tiered.append_to_tier, tiers_filled, tier_entries, tier_limits.
  cbn [Tiered.boundary_core Tiered.boundary_extended].
  destruct (Z.ltb_spec i 15000) as [H1|H1];
    [|destruct (Z.ltb_spec i 65000) as [H2|H2]];
    cbn [Tiered.core Tiered.extended Tiered.complete];
    rewrite ?len_snoc; (split; [lia|]).
  - rewrite (len_nil_inv (Tiered.extended ts)) by lia.
    rewrite (len_nil_inv (Tiered.complete ts)) by lia.
    rewrite !app_nil_r. reflexivity.
  - rewrite (len_nil_inv (Tiered.complete ts)) by lia.
    rewrite !app_nil_r, app_assoc. reflexivity.
  - rewrite !app_assoc. reflexivity.
Qed.

Ltac seqZ_step :=
  first
    [ rewrite !seqZ_nil by lia; reflexivity
    | match goal with
      | |- (?R ++ [?x]) ++ seqZ ?y ?k = ?R ++ seqZ ?z ?n =>
          rewrite (seqZ_cons z n) by lia; rewrite <- app_assoc; cbn [app];
          f_equal; f_equal; first [lia|f_equal; lia]
      end
    | do 2 f_equal; lia ].

Lemma fill_tiers_spec (language_code : string) (total : Z) (ws : list string) :
  forall (i : Z) (ts ts' : Tiered.tiers),
    0 <= i -> filled i ts ->
    Tiered.fill_tiers language_code b total i ws ts = Ok ts' ->
    filled (i + len ws) ts' /\
    map Tiered.rank (Tiered.core ts')
    = map Tiered.rank (Tiered.core ts) ++ seqZ (i + 1) (Z.min (i + len ws) 15000 - i) /\
    map Tiered.rank (Tiered.extended ts')
    = map Tiered.rank (Tiered.extended ts)
      ++ seqZ (Z.max i 15000 + 1) (Z.min (i + len ws) 65000 - Z.max i 15000) /\
    map Tiered.rank (Tiered.complete ts')
    = map Tiered.rank (Tiered.complete ts)
      ++ seqZ (Z.max i 65000 + 1) (i + len ws - Z.max i 65000) /\
    map Tiered.word (entries ts') = map Tiered.word (entries ts) ++ ws.
Proof.
  induction ws as [|w ws IH]; intros i ts ts' Hi Hfilled Hrun.
  - cbn [Tiered.fill_tiers] in Hrun. injection Hrun as <-.
    change (len (@nil string)) with 0. rewrite Z.add_0_r.
    rewrite !seqZ_nil by lia. rewrite !app_nil_r.
    repeat split; try reflexivity; apply Hfilled.
  - cbn [Tiered.fill_tiers] in Hrun.
    destruct (word_frequency w language_code) as [freq|] eqn:Hfreq;
      cbn [mbind result_bind] in Hrun; [|discriminate].
    destruct (Tiered.convert_to_user_scale_by_rank (i + 1) total) as [uf|];
      cbn [mbind result_bind] in Hrun; [|discriminate].
    match type of Hrun with
    | Tiered.fill_tiers _ _ _ _ _ (Tiered.append_to_tier _ _ ?e _) = _ =>
        set (entry := e) in *
    end.
    destruct (append_to_tier_filled i entry ts Hi Hfilled) as [Hfilled' Hentries].
    destruct (IH (i + 1) _ ts' ltac:(lia) Hfilled' Hrun)
      as (Hf & Hcore & Hext & Hcomp & Hwords).
    assert (Hlen : len (w :: ws) = len ws + 1) by (unfold len; simpl; lia).
    assert (Hws : 0 <= len ws) by (unfold len; lia).
    rewrite Hlen.
    split; [replace (i + (len ws + 1)) with (i + 1 + len ws) by lia; exact Hf|].
    replace (i + 1 + len ws) with (i + (len ws + 1)) in Hcore, Hext, Hcomp by lia.
    rewrite Hcore, Hext, Hcomp, Hwords, Hentries. clear Hcore Hext Hcomp Hwords.
    unfold Tiered.append_to_tier, tier_limits.
    cbn [Tiered.boundary_core Tiered.boundary_extended].
    destruct (Z.ltb_spec i 15000) as [H1|H1];
      [|destruct (Z.ltb_spec i 65000) as [H2|H2]];
      cbn [Tiered.core Tiered.extended Tiered.complete];
      rewrite ?map_app; cbn [map Tiered.rank Tiered.word entry];
      (split; [seqZ_step|split; [seqZ_step|split; [seqZ_step|]]]);
      rewrite <- app_assoc; reflexivity.
Qed.

Lemma fill_tiers_runs (language_code : string) (total : Z) (ws : list string) :
  forall (i : Z) (ts : Tiered.tiers),
    0 <= i -> i + len ws <= total ->
    (forall w, In w ws -> exists f, word_frequency w language_code = Ok f) ->
    exists ts', Tiered.fill_tiers language_code b total i ws ts = Ok ts'.
Proof.
  induction ws as [|w ws IH]; intros i ts Hi Htotal Hfreq.
  - eexists. reflexivity.
  - assert (Hlen : len (w :: ws) = len ws + 1) by (unfold len; simpl; lia).
    assert (Hws : 0 <= len ws) by (unfold len; lia).
    cbn [Tiered.fill_tiers].
    destruct (Hfreq w (or_introl eq_refl)) as [f ->]. cbn [mbind result_bind].
    rewrite convert_to_user_scale_by_rank_rounded by lia.
    cbn [mbind result_bind].
    apply IH; [lia|lia|]. intros w' Hw'. apply Hfreq. right. exact Hw'.
Qed.

End Tiers.

Lemma tier_ranks_cover (T : Z) :
  0 <= T ->
  seqZ 1 (Z.min 15000 T) ++ seqZ 15001 (Z.min 65000 T - 15000)
    ++ seqZ 65001 (T - 65000)
  = seqZ 1 T.
Proof.
  intros HT.
  destruct (Z_le_gt_dec T 15000); [|destruct (Z_le_gt_dec T 65000)].
  - rewrite (seqZ_nil 15001), (seqZ_nil 65001), !app_nil_r by lia.
    f_equal. lia.
  - rewrite (seqZ_nil 65001), app_nil_r by lia.
    replace T with (15000 + (T - 15000)) at 3 by lia.
    rewrite seqZ_app by lia. f_equal; f_equal; lia.
  - replace T with (15000 + (50000 + (T - 65000))) at 4 by lia.
    rewrite seqZ_app by lia. rewrite (seqZ_app (1 + 15000)) by lia.
    f_equal; [f_equal; lia|]. f_equal; f_equal; lia.
Qed.

(** C4: the tier of a word entry is decided by its rank alone: core holds
    the ranks 1..min(15000,T), extended the ranks 15001..min(65000,T) and
    complete the ranks 65001..T; together they are the whole word list, in
    order, each word once, and the three sizes add up to T.  The loop
    returns the tiers whenever the source has a frequency for every word. *)
Theorem tiers_partition `{Wordfreq} (language_code : string) (max_words : Z)
    (all_words : list string) :
  let T := len all_words in
  let run :=
    Tiered.fill_tiers language_code
      {| Tiered.boundary_core := 15000; Tiered.boundary_extended := 65000;
         Tiered.boundary_complete := max_words |}
      T 0 all_words
      {| Tiered.core := []; Tiered.extended := []; Tiered.complete := [] |} in
  ((forall w, In w all_words -> exists f, word_frequency w language_code = Ok f) ->
   exists ts, run = Ok ts) /\
  (forall ts,
     run = Ok ts ->
     map Tiered.rank (Tiered.core ts) = seqZ 1 (Z.min 15000 T) /\
     map Tiered.rank (Tiered.extended ts) = seqZ 15001 (Z.min 65000 T - 15000) /\
     map Tiered.rank (Tiered.complete ts) = seqZ 65001 (T - 65000) /\
     map Tiered.word (Tiered.core ts ++ Tiered.extended ts ++ Tiered.complete ts)
     = all_words /\
     map Tiered.rank (Tiered.core ts ++ Tiered.extended ts ++ Tiered.complete ts)
     = seqZ 1 T /\
     len (Tiered.core ts) + len (Tiered.extended ts) + len (Tiered.complete ts) = T).
Proof.
  intros T run. assert (HT : 0 <= T) by (subst T; unfold len; lia). split.
  - intros Hfreq. apply fill_tiers_runs; [lia|fold T; lia|exact Hfreq].
  - intros ts Hrun.
    pose proof (fill_tiers_spec max_words language_code T all_words 0
                  {| Tiered.core := []; Tiered.extended := [];
                     Tiered.complete := [] |} ts
                  ltac:(lia) ltac:(repeat split; reflexivity) Hrun)
      as ((Hc & He & Hk) & Hcore & Hext & Hcomp & Hwords).
    cbn [Tiered.core Tiered.extended Tiered.complete map app] in *.
    fold T in Hc, He, Hk, Hcore, Hext, Hcomp.
    replace (Z.min (0 + T) 15000 - 0) with (Z.min 15000 T) in Hcore by lia.
    replace (Z.max 0 15000 + 1) with 15001 in Hext by lia.
    replace (Z.min (0 + T) 65000 - Z.max 0 15000) with (Z.min 65000 T - 15000)
      in Hext by lia.
    replace (Z.max 0 65000 + 1) with 65001 in Hcomp by lia.
    replace (0 + T - Z.max 0 65000) with (T - 65000) in Hcomp by lia.
    repeat split; try assumption.
    + rewrite !map_app, Hcore, Hext, Hcomp. apply tier_ranks_cover, HT.
    + lia.
Qed.

Lemma tiers_partition_witness :
  exists ts,
    Tiered.fill_tiers (H := mock_wordfreq ["the"; "of"; "and"] []) "en"
      {| Tiered.boundary_core := 15000; Tiered.boundary_extended := 65000;
         Tiered.boundary_complete := 3 |}
      3 0 ["the"; "of"; "and"]
      {| Tiered.core := []; Tiered.extended := []; Tiered.complete := [] |}
    = Ok ts.
Proof.
  apply (proj1 (tiers_partition (H := mock_wordfreq ["the"; "of"; "and"] [])
                  "en" 3 ["the"; "of"; "and"])).
  intros w _. eexists. reflexivity.
Defined.

(** ** The lookup object of a tier file *)

Lemma lookup_of_snoc (tier_data : list Tiered.word_entry) (e : Tiered.word_entry) :
  Tiered.lookup_of (tier_data ++ [e])
  = <[Tiered.word e := Tiered.lookup_value e]> (Tiered.lookup_of tier_data).
Proof. unfold Tiered.lookup_of. rewrite foldl_app. reflexivity. Qed.

(** The lookup holds, for each word, the last entry of that word. *)
Lemma lookup_of_last (tier_data : list Tiered.word_entry) (W : string) :
  Tiered.lookup_of tier_data !! W
  = Tiered.lookup_value <$> last (filter (fun e => Tiered.word e = W) tier_data).
Proof.
  induction tier_data as [|e tier_data IH] using rev_ind.
  - reflexivity.
  - rewrite lookup_of_snoc, filter_app.
    destruct (decide (Tiered.word e = W)) as [He|He].
    + rewrite He, lookup_insert_eq.
      rewrite (filter_cons_True _ e []) by exact He.
      rewrite filter_nil, last_snoc. reflexivity.
    + rewrite lookup_insert_ne by exact He.
      rewrite (filter_cons_False _ e []) by exact He.
      rewrite filter_nil, app_nil_r. exact IH.
Qed.

Lemma filter_word_NoDup (tier_data : list Tiered.word_entry) (e : Tiered.word_entry) :
  NoDup (map Tiered.word tier_data) -> In e tier_data ->
  filter (fun e' => Tiered.word e' = Tiered.word e) tier_data = [e].
Proof.
  induction tier_data as [|e0 tier_data IH]; intros Hnd Hin; [destruct Hin|].
  cbn [map] in Hnd. apply NoDup_cons in Hnd as [Hfresh Hnd].
  assert (Hnone : forall x, In x tier_data -> Tiered.word x <> Tiered.word e0).
  { intros x Hx Heq. apply Hfresh. rewrite <- Heq.
    apply list_elem_of_In, in_map, Hx. }
  destruct Hin as [->|Hin].
  - rewrite filter_cons_True by reflexivity. f_equal.
    clear IH Hfresh Hnd. induction tier_data as [|x l IHl]; [reflexivity|].
    rewrite filter_cons_False by (apply Hnone; left; reflexivity).
    apply IHl. intros y Hy. apply Hnone. right. exact Hy.
  - rewrite filter_cons_False.
    + apply IH; assumption.
    + intros Heq. apply (Hnone e Hin). symmetry. exact Heq.
Qed.

(** What [export_tier] leaves on disk: nothing new, or the tier file. *)
Lemma export_tier_writes `{OS Tiered.document} (language_name tier_name : string)
    (state : float * gmap string Tiered.tier_summary)
    (tier_data : list Tiered.word_entry) (fs : disk Tiered.document) :
  let filename := "public/wordfreq-tiers/" +:+ lower language_name
                  +:+ "-" +:+ tier_name +:+ ".json" in
  let fs' := snd (Tiered.export_tier language_name state (tier_name, tier_data) fs) in
  fs' = fs \/
  fs' = <[filename := Tiered.TierFile (Tiered.make_tier_export tier_name tier_data)]> fs.
Proof.
  intros filename fs'. subst fs'. unfold Tiered.export_tier.
  destruct state as [total_size info].
  destruct tier_data as [|e tier_data]; [left; reflexivity|].
  fold filename. unfold mbind, M_bind, dump_to.
  destruct (io_fault filename); [left; reflexivity|].
  right. unfold getsize_mb, mbind, M_bind, getsize.
  rewrite lookup_insert_eq. unfold lift.
  destruct (int_truediv _ 1024); reflexivity.
Qed.

(** C7: in a tier file the lookup entry of every word of the words array
    has the frequency, rank and user_frequency of an element of the array
    with that word: the last one, which is the only one when the words are
    distinct, so that then every element of the array has its three fields
    in the lookup; the lookup has no other entry; and this is the tier file
    the exporter writes. *)
Theorem lookup_round_trip (tier_name : string)
    (tier_data : list Tiered.word_entry) :
  let t := Tiered.make_tier_export tier_name tier_data in
  let same_fields (l : Tiered.lookup_entry) (e : Tiered.word_entry) :=
    Tiered.lookup_frequency l = Tiered.frequency e /\
    Tiered.lookup_rank l = Tiered.rank e /\
    Tiered.lookup_user_frequency l = Tiered.user_frequency e in
  (forall W, In W (map Tiered.word (Tiered.words t)) ->
     exists e l, In e (Tiered.words t) /\ Tiered.word e = W /\
                 Tiered.lookup t !! W = Some l /\ same_fields l e) /\
  (forall W,
     Tiered.lookup t !! W
     = (fun e => {| Tiered.lookup_frequency := Tiered.frequency e;
                    Tiered.lookup_rank := Tiered.rank e;
                    Tiered.lookup_user_frequency := Tiered.user_frequency e |})
         <$> last (filter (fun e => Tiered.word e = W) (Tiered.words t))) /\
  (NoDup (map Tiered.word (Tiered.words t)) ->
   forall e, In e (Tiered.words t) ->
     exists l, Tiered.lookup t !! Tiered.word e = Some l /\ same_fields l e) /\
  (forall (os : OS Tiered.document) language_name state fs,
     let filename := "public/wordfreq-tiers/" +:+ lower language_name
                     +:+ "-" +:+ tier_name +:+ ".json" in
     let fs' := snd (Tiered.export_tier language_name state
                       (tier_name, tier_data) fs) in
     fs' = fs \/ fs' = <[filename := Tiered.TierFile t]> fs).
Proof.
  intros t same_fields.
  cbn [t Tiered.make_tier_export Tiered.words Tiered.lookup].
  split; [|split; [|split]].
  - intros W HW. rewrite lookup_of_last.
    apply in_map_iff in HW as (e0 & He0 & Hin0).
    assert (Hne : filter (fun e => Tiered.word e = W) tier_data <> []).
    { intros Hnil.
      assert (Hmem : e0 ∈ filter (fun e => Tiered.word e = W) tier_data).
      { apply list_elem_of_filter. split; [exact He0|apply list_elem_of_In, Hin0]. }
      rewrite Hnil in Hmem. inversion Hmem. }
    destruct (last (filter (fun e => Tiered.word e = W) tier_data)) as [e|] eqn:Hl.
    + exists e, (Tiered.lookup_value e). apply last_Some_elem_of in Hl.
      apply list_elem_of_filter in Hl as [Hw Hin].
      split; [apply list_elem_of_In, Hin|]. split; [exact Hw|].
      split; [reflexivity|]. repeat split; reflexivity.
    + apply last_None in Hl. contradiction.
  - intros W. rewrite lookup_of_last. reflexivity.
  - intros Hnd e Hin. rewrite lookup_of_last, filter_word_NoDup by assumption.
    exists (Tiered.lookup_value e). split; [reflexivity|].
    repeat split; reflexivity.
  - intros os language_name state fs. apply export_tier_writes.
Qed.

Lemma lookup_round_trip_witness :
  let e1 := {| Tiered.word := "the"; Tiered.frequency := B64.lit 100 (-1);
               Tiered.rank := 1; Tiered.user_frequency := 5 |} in
  let e2 := {| Tiered.word := "of"; Tiered.frequency := B64.lit 90 (-1);
               Tiered.rank := 2; Tiered.user_frequency := 4 |} in
  exists l,
    Tiered.lookup (Tiered.make_tier_export "core" [e1; e2]) !! "of" = Some l /\
    Tiered.lookup_frequency l = B64.lit 90 (-1) /\
    Tiered.lookup_rank l = 2 /\
    Tiered.lookup_user_frequency l = 4.
Proof.
  intros e1 e2.
  refine (proj1 (proj2 (proj2 (lookup_round_trip "core" [e1; e2]))) _ e2 _).
  - cbn. apply NoDup_cons. split; [|apply NoDup_singleton].
    intros Hin. apply list_elem_of_singleton in Hin. discriminate Hin.
  - right. left. reflexivity.
Defined.

(** ** Failures stay within their language *)

Lemma try_except_zero {document : Type} (body : M document Z) (fs : disk document) :
  exists count fs',
    try_except body (fun e => mret 0) fs = (Ok count, fs') /\
    (forall e fs1, body fs = (Raise e, fs1) -> count = 0 /\ fs' = fs1) /\
    (forall n fs1, body fs = (Ok n, fs1) -> count = n /\ fs' = fs1).
Proof.
  unfold try_except. destruct (body fs) as [[n|e] fs1].
  - exists n, fs1. repeat split; congruence.
  - exists 0, fs1. repeat split; congruence.
Qed.

Lemma export_all_three {document : Type} (export : string -> string -> M document Z)
    (fs : disk document) :
  (forall name code fs0, exists count fs1, export name code fs0 = (Ok count, fs1)) ->
  exists c1 fs1 c2 fs2 c3 fs3,
    export "English" "en" fs = (Ok c1, fs1) /\
    export "Spanish" "es" fs1 = (Ok c2, fs2) /\
    export "Portuguese" "pt" fs2 = (Ok c3, fs3) /\
    export_all export languages 0 fs = (Ok (c1 + c2 + c3), fs3).
Proof.
  intros Htotal.
  destruct (Htotal "English" "en" fs) as (c1 & fs1 & H1).
  destruct (Htotal "Spanish" "es" fs1) as (c2 & fs2 & H2).
  destruct (Htotal "Portuguese" "pt" fs2) as (c3 & fs3 & H3).
  exists c1, fs1, c2, fs2, c3, fs3. repeat split; try assumption.
  unfold languages. cbn [export_all]. unfold mbind, M_bind.
  rewrite H1, H2, H3. reflexivity.
Qed.

(** C9: an exception raised while a language is exported, in either
    exporter, is caught there: the export of that language returns 0 and
    never raises, and the loop of [main] runs the export of each of the
    three languages, whatever the others did, and adds up their counts. *)
Theorem export_failures_contained `{Wordfreq} :
  (forall (os : OS Flat.document) name code num_words fs,
     exists count fs',
       Flat.export_language_frequencies name code num_words fs = (Ok count, fs') /\
       (forall e fs1,
          Flat.export_language_frequencies_body name code num_words fs
          = (Raise e, fs1) -> count = 0 /\ fs' = fs1)) /\
  (forall (os : OS Tiered.document) name code fs,
     exists count fs',
       Tiered.export_tiered_language_data name code fs = (Ok count, fs') /\
       (forall e fs1,
          Tiered.export_tiered_language_data_body name code fs
          = (Raise e, fs1) -> count = 0 /\ fs' = fs1)) /\
  (forall (os : OS Flat.document) fs,
     exists c1 fs1 c2 fs2 c3 fs3,
       Flat.export_language_frequencies "English" "en" None fs = (Ok c1, fs1) /\
       Flat.export_language_frequencies "Spanish" "es" None fs1 = (Ok c2, fs2) /\
       Flat.export_language_frequencies "Portuguese" "pt" None fs2 = (Ok c3, fs3) /\
       Flat.main fs = (Ok (c1 + c2 + c3), fs3)) /\
  (forall (os : OS Tiered.document) fs,
     exists c1 fs1 c2 fs2 c3 fs3,
       Tiered.export_tiered_language_data "English" "en" fs = (Ok c1, fs1) /\
       Tiered.export_tiered_language_data "Spanish" "es" fs1 = (Ok c2, fs2) /\
       Tiered.export_tiered_language_data "Portuguese" "pt" fs2 = (Ok c3, fs3) /\
       Tiered.main fs = (Ok (c1 + c2 + c3), fs3)).
Proof.
  assert (Hflat : forall (os : OS Flat.document) name code num_words fs,
     exists count fs',
       Flat.export_language_frequencies name code num_words fs = (Ok count, fs') /\
       (forall e fs1,
          Flat.export_language_frequencies_body name code num_words fs
          = (Raise e, fs1) -> count = 0 /\ fs' = fs1)).
  { intros os name code num_words fs.
    destruct (try_except_zero
                (Flat.export_language_frequencies_body name code num_words) fs)
      as (count & fs' & Hrun & Hraise & _).
    exists count, fs'. split; [exact Hrun|exact Hraise]. }
  assert (Htiered : forall (os : OS Tiered.document) name code fs,
     exists count fs',
       Tiered.export_tiered_language_data name code fs = (Ok count, fs') /\
       (forall e fs1,
          Tiered.export_tiered_language_data_body name code fs
          = (Raise e, fs1) -> count = 0 /\ fs' = fs1)).
  { intros os name code fs.
    destruct (try_except_zero
                (Tiered.export_tiered_language_data_body name code) fs)
      as (count & fs' & Hrun & Hraise & _).
    exists count, fs'. split; [exact Hrun|exact Hraise]. }
  split; [exact Hflat|]. split; [exact Htiered|]. split.
  - intros os fs. unfold Flat.main.
    apply (export_all_three
             (fun name code => Flat.export_language_frequencies name code None)).
    intros name code fs0.
    destruct (Hflat os name code None fs0) as (count & fs' & Hrun & _).
    exists count, fs'. exact Hrun.
  - intros os fs. unfold Tiered.main.
    apply (export_all_three Tiered.export_tiered_language_data).
    intros name code fs0.
    destruct (Htiered os name code fs0) as (count & fs' & Hrun & _).
    exists count, fs'. exact Hrun.
Qed.

Lemma export_failures_contained_witness :
  exists fs',
    Flat.export_language_frequencies
      (H := mock_wordfreq ["the"; "of"] ["es"]) (H0 := mock_os)
      "Spanish" "es" None ∅
    = (Ok 0, fs').
Proof.
  destruct (proj1 (export_failures_contained
                     (H := mock_wordfreq ["the"; "of"] ["es"]))
              mock_os "Spanish" "es" None ∅)
    as (count & fs' & Hrun & Hraise).
  exists fs'.
  destruct (Hraise (Raised "LookupError") ∅ eq_refl) as [-> _]. exact Hrun.
Defined.

(** With Spanish failing, the two other languages are still exported. *)
Example main_skips_failed_language :
  let run := Tiered.main (H := mock_wordfreq ["the"; "of"] ["es"])
                         (H0 := mock_os) ∅ in
  fst run = Ok 4 /\
  dom (snd run)
  = {[ "public/wordfreq-tiers/english-core.json";
       "public/wordfreq-tiers/english-metadata.json";
       "public/wordfreq-tiers/portuguese-core.json";
       "public/wordfreq-tiers/portuguese-metadata.json" ]}.
Proof.
  split; [vm_compute; reflexivity|].
  apply (bool_decide_unpack _). vm_compute. exact I.
Qed.

(** * Further properties of the code *)

(** ** The two frequency scales agree *)

Ltac settle_chain :=
  repeat match goal with
         | H : false = true |- _ => discriminate H
         | H : true = true -> _ |- _ => specialize (H eq_refl)
         | H : false = true -> _ |- _ => clear H
         | H : ?a = true -> _, E : ?a = true |- _ => specialize (H E)
         | E : ?b = true |- context [if ?b then _ else _] => rewrite E
         end.

(** X1: the 1-5 scale of the flat exporter is the detailed 1.0-10.0 scale of
    the tiered exporter read coarsely, for every float, NaN and the
    infinities included: detailed values up to 2.0 give 1, up to 3.0 give
    2, up to 5.0 give 3, up to 7.0 give 4, and the higher ones give 5. *)
Theorem flat_scale_coarsens_detailed (f : float) :
  Flat.convert_frequency_to_scale f
  = coarsen (Tiered.convert_frequency_to_detailed_scale f).
Proof.
  assert (Hz : B64.eqb f B64.zero = true -> B64.ltb f f_1e_7 = true)
    by apply B64Facts.eqb_zero_lt_pos.
  pose proof (fun L => B64Facts.lt_trans f f_1e_7 f_5e_7 L eq_refl) as H1.
  pose proof (fun L => B64Facts.lt_trans f f_5e_7 f_1e_6 L eq_refl) as H2.
  pose proof (fun L => B64Facts.lt_trans f f_1e_6 f_5e_6 L eq_refl) as H3.
  pose proof (fun L => B64Facts.lt_trans f f_5e_6 f_1e_5 L eq_refl) as H4.
  pose proof (fun L => B64Facts.lt_trans f f_1e_5 f_5e_5 L eq_refl) as H5.
  pose proof (fun L => B64Facts.lt_trans f f_5e_5 f_1e_4 L eq_refl) as H6.
  pose proof (fun L => B64Facts.lt_trans f f_1e_4 f_5e_4 L eq_refl) as H7.
  pose proof (fun L => B64Facts.lt_trans f f_5e_4 f_1e_3 L eq_refl) as H8.
  pose proof (fun L => B64Facts.lt_trans f f_1e_3 f_5e_3 L eq_refl) as H9.
  pose proof (fun L => B64Facts.lt_trans f f_5e_3 f_1e_2 L eq_refl) as H10.
  unfold Flat.convert_frequency_to_scale,
    Tiered.convert_frequency_to_detailed_scale.
  repeat (match goal with
          | |- context [if ?b then _ else _] => destruct b eqn:?
          end; settle_chain);
    reflexivity.
Qed.

(** ** The ends of the rank scale *)

(** X2: the ends of the rank scale.  The first rank of a list gets 5, the
    last rank of a list of at least two words gets 1, and a total of zero
    raises ZeroDivisionError whatever the rank. *)
Theorem rank_scale_edges :
  (forall T, 1 <= T -> Tiered.convert_to_user_scale_by_rank 1 T = Ok 5) /\
  (forall T, 2 <= T -> Tiered.convert_to_user_scale_by_rank T T = Ok 1) /\
  (forall r, Tiered.convert_to_user_scale_by_rank r 0 = Raise ZeroDivisionError).
Proof.
  split; [|split].
  - intros T HT. rewrite convert_to_user_scale_by_rank_rounded by lia.
    f_equal. unfold rank_scale_rounded. cbv zeta.
    rewrite (proj2 (Z.leb_le _ _)) by lia. reflexivity.
  - intros T HT. rewrite convert_to_user_scale_by_rank_rounded by lia.
    f_equal. unfold rank_scale_rounded. cbv zeta.
    rewrite !(proj2 (Z.leb_gt _ _)) by lia. reflexivity.
  - intros r. reflexivity.
Qed.

Lemma rank_scale_edges_witness :
  Tiered.convert_to_user_scale_by_rank 1 7 = Ok 5 /\
  Tiered.convert_to_user_scale_by_rank 7 7 = Ok 1.
Proof.
  split.
  - apply (proj1 rank_scale_edges 7). lia.
  - apply (proj1 (proj2 rank_scale_edges) 7). lia.
Defined.

(** ** What the size detection can return *)

Lemma last_cons_default {A} (l : list A) (x d d' : A) :
  List.last (x :: l) d = List.last (x :: l) d'.
Proof.
  revert x. induction l as [|y l IH]; intros x; [reflexivity|].
  change (List.last (y :: l) d = List.last (y :: l) d'). apply IH.
Qed.

Section ProbeBounds.
Context `{Wordfreq}.

Lemma probe_sizes_bounds (language_code : string) (bound : Z) (sizes : list Z) :
  (forall size ws, top_n_list language_code size = Ok ws -> len ws <= size) ->
  Forall (fun size => size <= bound) sizes ->
  forall fallback,
    0 <= fallback <= bound ->
    0 <= probe_sizes language_code sizes fallback <= bound.
Proof.
  intros Hbounded Hsizes. induction Hsizes as [|size sizes Hsize _ IH];
    intros fallback Hfb; cbn [probe_sizes]; [exact Hfb|].
  destruct (top_n_list language_code size) as [ws|e] eqn:Hprobe; [|exact Hfb].
  pose proof (Hbounded size ws Hprobe) as Hlen.
  assert (0 <= len ws) by (unfold len; lia).
  destruct (len ws <? size); [lia|]. apply IH. lia.
Qed.

Lemma probe_sizes_mock_min (language_code : string) (N : Z) (sizes : list Z) :
  StronglySorted Z.le sizes ->
  (forall size, In size sizes ->
     exists ws, top_n_list language_code size = Ok ws /\ len ws = Z.min N size) ->
  forall fallback,
    probe_sizes language_code sizes fallback
    = match sizes with
      | [] => fallback
      | size :: _ => Z.min N (List.last sizes size)
      end.
Proof.
  induction sizes as [|size sizes IH]; intros Hsorted Hmock fallback;
    [reflexivity|].
  apply StronglySorted_inv in Hsorted as [Hsorted Hle].
  cbn [probe_sizes].
  destruct (Hmock size (or_introl eq_refl)) as (ws & -> & Hlen). rewrite Hlen.
  assert (Hlast : size <= List.last (size :: sizes) size).
  { destruct sizes as [|s sizes]; [cbn; lia|].
    rewrite Forall_forall in Hle. apply Hle.
    apply list_elem_of_In. change (List.last (size :: s :: sizes) size)
      with (List.last (s :: sizes) size).
    destruct (exists_last (l := s :: sizes) ltac:(discriminate)) as (l' & x & ->).
    rewrite last_last. apply in_or_app. right. left. reflexivity. }
  destruct (Z.ltb_spec (Z.min N size) size) as [Hshort|Hfull]; [lia|].
  rewrite IH; [|exact Hsorted|intros s Hs; apply Hmock; right; exact Hs].
  destruct sizes as [|s sizes]; [cbn; lia|].
  change (List.last (size :: s :: sizes) size) with (List.last (s :: sizes) size).
  f_equal. apply last_cons_default.
Qed.

End ProbeBounds.

(** X3: what the size detection of the exporters can return.  When the
    source never returns more words than requested, the detected size is
    between 0 and 500000; when the source holds [N] words and returns the
    first [size] of them, the detected size is [N], capped at 500000. *)
Theorem probe_max_words_range `{Wordfreq} (language_code : string) :
  ((forall size ws, top_n_list language_code size = Ok ws -> len ws <= size) ->
   0 <= probe_max_words language_code <= 500000) /\
  (forall N,
     (forall size, In size test_sizes ->
        exists ws, top_n_list language_code size = Ok ws /\
                   len ws = Z.min N size) ->
     probe_max_words language_code = Z.min N 500000).
Proof.
  split.
  - intros Hbounded. apply (probe_sizes_bounds language_code 500000); [exact Hbounded| |lia].
    unfold test_sizes. repeat constructor; lia.
  - intros N Hmock. unfold probe_max_words.
    rewrite (probe_sizes_mock_min language_code N test_sizes test_sizes_sorted Hmock).
    reflexivity.
Qed.

Lemma probe_max_words_range_witness :
  probe_max_words (H := mock_wordfreq ["the"; "of"; "and"] []) "en"
  = Z.min 3 500000.
Proof.
  apply (proj2 (probe_max_words_range (H := mock_wordfreq ["the"; "of"; "and"] [])
                  "en") 3).
  intros size Hin. exists (take (Z.to_nat size) ["the"; "of"; "and"]).
  split; [reflexivity|].
  destruct Hin as [<-|[<-|[<-|[<-|[<-|[]]]]]]; vm_compute; reflexivity.
Defined.

(** ** The limit prober *)
Section LimitProber.
Context `{Wordfreq}.

Lemma probe_lines_max (lang_code : string) (sizes : list Z) (max_available : Z) :
  snd (Limits.probe_lines lang_code sizes max_available)
  = probe_sizes lang_code sizes max_available.
Proof.
  revert max_available. induction sizes as [|size sizes IH]; intros m;
    [reflexivity|].
  cbn [Limits.probe_lines probe_sizes].
  destruct (top_n_list lang_code size) as [ws|e]; [|reflexivity].
  destruct (len ws <? size); [reflexivity|].
  rewrite <- IH. destruct (Limits.probe_lines lang_code sizes (len ws)).
  reflexivity.
Qed.

Lemma probe_lines_mock (lang_code : string) (N : Z) (sizes : list Z)
    (max_available : Z) :
  (forall size, In size sizes ->
     exists ws, top_n_list lang_code size = Ok ws /\ len ws = Z.min N size) ->
  Forall (fun l => exists size, In size sizes /\
                                 l = Limits.Requested size (Z.min N size))
         (fst (Limits.probe_lines lang_code sizes max_available)).
Proof.
  revert max_available. induction sizes as [|size sizes IH]; intros m Hmock;
    [constructor|].
  cbn [Limits.probe_lines].
  destruct (Hmock size (or_introl eq_refl)) as (ws & -> & Hlen). rewrite Hlen.
  assert (Hhead : exists s, In s (size :: sizes) /\
                    Limits.Requested size (Z.min N size)
                    = Limits.Requested s (Z.min N s)).
  { exists size. split; [left|]; reflexivity. }
  destruct (Z.min N size <? size); [repeat constructor; exact Hhead|].
  specialize (IH (Z.min N size) (fun s Hs => Hmock s (or_intror Hs))).
  destruct (Limits.probe_lines lang_code sizes (Z.min N size)) as [lines m'].
  cbn [fst] in *. constructor; [exact Hhead|].
  eapply Forall_impl; [exact IH|].
  intros l (s & Hs & ->). exists s. split; [right; exact Hs|reflexivity].
Qed.

Lemma limit_sizes_sorted : StronglySorted Z.le Limits.test_sizes.
Proof. repeat constructor; lia. Qed.

(** X4: the report of the limit checker for one language is its header, the
    lines of the requests and the maximum, which is the value the loop
    over the sizes ends with.  For a source that holds [N] words the
    maximum is [N] capped at 1000000, every line shows the request and
    what was available, and up to 500000 words the exporters detect the
    same size. *)
Theorem check_language_reports (lang_name lang_code : string) :
  (exists lines,
     Limits.check_language lang_name lang_code
     = Limits.LanguageHeader lang_name lang_code
       :: lines
       ++ [Limits.Maximum (probe_sizes lang_code Limits.test_sizes 0)]) /\
  (forall N,
     (forall size, In size Limits.test_sizes \/ In size test_sizes ->
        exists ws, top_n_list lang_code size = Ok ws /\
                   len ws = Z.min N size) ->
     exists lines,
       Limits.check_language lang_name lang_code
       = Limits.LanguageHeader lang_name lang_code
         :: lines ++ [Limits.Maximum (Z.min N 1000000)] /\
       Forall (fun l => exists size, In size Limits.test_sizes /\
                                      l = Limits.Requested size (Z.min N size))
              lines /\
       (N <= 500000 -> probe_max_words lang_code = Z.min N 1000000)).
Proof.
  split.
  - unfold Limits.check_language.
    pose proof (probe_lines_max lang_code Limits.test_sizes 0) as Hmax.
    destruct (Limits.probe_lines lang_code Limits.test_sizes 0) as [lines m].
    cbn [snd] in Hmax. subst m. exists lines. reflexivity.
  - intros N Hmock. unfold Limits.check_language.
    pose proof (probe_lines_max lang_code Limits.test_sizes 0) as Hmax.
    pose proof (probe_lines_mock lang_code N Limits.test_sizes 0
                  (fun s Hs => Hmock s (or_introl Hs))) as Hlines.
    destruct (Limits.probe_lines lang_code Limits.test_sizes 0) as [lines m].
    cbn [fst snd] in *. subst m. exists lines.
    rewrite (probe_sizes_mock_min lang_code N Limits.test_sizes
               limit_sizes_sorted (fun s Hs => Hmock s (or_introl Hs))).
    split; [reflexivity|]. split; [exact Hlines|].
    intros HN. unfold probe_max_words.
    rewrite (probe_sizes_mock_min lang_code N test_sizes test_sizes_sorted
               (fun s Hs => Hmock s (or_intror Hs))).
    cbn. lia.
Qed.

End LimitProber.

Lemma check_language_reports_witness :
  exists lines,
    Limits.check_language (H := mock_wordfreq ["the"; "of"; "and"] []) "English" "en"
    = Limits.LanguageHeader "English" "en"
      :: lines ++ [Limits.Maximum (Z.min 3 1000000)].
Proof.
  destruct (proj2 (check_language_reports
                     (H := mock_wordfreq ["the"; "of"; "and"] []) "English" "en") 3)
    as (lines & Hlines & _).
  - intros size Hin. exists (take (Z.to_nat size) ["the"; "of"; "and"]).
    split; [reflexivity|].
    destruct Hin as [Hin|Hin];
      repeat (destruct Hin as [<-|Hin]; [vm_compute; reflexivity|]);
      destruct Hin.
  - exists lines. exact Hlines.
Defined.

Lemma string_leb_total : Total (fun a b => Is_true (String.leb a b)).
Proof.
  intros a b. destruct (String.leb_total a b) as [Hab|Hba];
    [left|right]; apply Is_true_true; assumption.
Qed.

Lemma probe_lines_exact `{Wordfreq} (lang_code : string) (N : Z) (sizes : list Z) :
  (forall size, In size sizes ->
     exists words, top_n_list lang_code size = Ok words /\
                   len words = Z.min N size) ->
  forall max_available,
    Limits.probe_lines lang_code sizes max_available
    = (map (fun size => Limits.Requested size (Z.min N size))
           (requested_sizes N sizes),
       match last (requested_sizes N sizes) with
       | Some size => Z.min N size
       | None => max_available
       end).
Proof.
  induction sizes as [|size sizes IH]; intros Hsource m; [reflexivity|].
  cbn [Limits.probe_lines requested_sizes].
  destruct (Hsource size (or_introl eq_refl)) as (words & -> & Hlen).
  cbv zeta. rewrite Hlen.
  assert (Hcmp : (Z.min N size <? size) = (N <? size)).
  { destruct (Z.ltb_spec N size), (Z.ltb_spec (Z.min N size) size);
      try reflexivity; lia. }
  rewrite Hcmp. destruct (N <? size); [reflexivity|].
  rewrite (IH (fun s Hs => Hsource s (or_intror Hs))).
  cbn [map]. f_equal.
  destruct (requested_sizes N sizes) as [|s l]; [reflexivity|].
  change (last (size :: s :: l)) with (last (s :: l)).
  destruct (last (s :: l)) as [x|] eqn:Hlast; [reflexivity|].
  apply last_None in Hlast. discriminate Hlast.
Qed.

Lemma check_language_exact `{Wordfreq} (lang_name lang_code : string) (N : Z) :
  holds_words lang_code N ->
  Limits.check_language lang_name lang_code = language_report lang_name lang_code N.
Proof.
  intros Hsource. unfold Limits.check_language, language_report.
  rewrite (probe_lines_exact lang_code N Limits.test_sizes Hsource 0).
  assert (Hmax : match last (requested_sizes N Limits.test_sizes) with
                 | Some size => Z.min N size
                 | None => 0
                 end = Z.min N 1000000).
  { unfold Limits.test_sizes. cbn [requested_sizes].
    repeat match goal with
           | |- context [N <? ?s] => destruct (Z.ltb_spec N s)
           end; cbn [last]; lia. }
  rewrite Hmax. reflexivity.
Qed.

(** X5: what the limit checker prints, line by line.  For three languages
    whose lists hold [N_en], [N_es] and [N_pt] words it prints the banner
    and, for English, Spanish and Portuguese in this order, the header,
    one line for each size up to the first one above the number of words,
    showing what was available, and the maximum, which is that number
    capped at 1000000; then the languages of the library: their number and
    the languages in ascending order.  An exception of
    [available_languages] ends the script after the three reports.  A
    language whose first request raises shows the error and a maximum of
    zero. *)
Theorem check_language_limits_output `{Wordfreq} `{Limits.Languages}
    (N_en N_es N_pt : Z) :
  (holds_words "en" N_en -> holds_words "es" N_es -> holds_words "pt" N_pt ->
   let printed :=
     [Limits.Banner; Limits.Rule]
     ++ language_report "English" "en" N_en
     ++ language_report "Spanish" "es" N_es
     ++ language_report "Portuguese" "pt" N_pt
     ++ [Limits.Rule; Limits.AllLanguages] in
   match Limits.available_languages with
   | Raise e => Limits.check_language_limits = (printed, Raise e)
   | Ok all_langs =>
       exists langs,
         Limits.check_language_limits
         = (printed ++ Limits.Total (len all_langs) :: map Limits.Language langs,
            Ok ()) /\
         langs ≡ₚ all_langs /\
         Sorted (fun a b => Is_true (String.leb a b)) langs
   end) /\
  (forall lang_name lang_code e,
     top_n_list lang_code 10000 = Raise e ->
     Limits.check_language lang_name lang_code
     = [Limits.LanguageHeader lang_name lang_code;
        Limits.ProbeError 10000 e; Limits.Maximum 0]).
Proof.
  split.
  - intros Hen Hes Hpt printed. subst printed.
    unfold Limits.check_language_limits, languages.
    cbn [map concat]. rewrite app_nil_r.
    rewrite (check_language_exact "English" "en" N_en Hen),
            (check_language_exact "Spanish" "es" N_es Hes),
            (check_language_exact "Portuguese" "pt" N_pt Hpt).
    rewrite <- !app_assoc.
    destruct Limits.available_languages as [all_langs|e]; [|reflexivity].
    exists (Limits.sorted all_langs). split; [|split].
    + rewrite <- !app_assoc. reflexivity.
    + apply merge_sort_Permutation.
    + apply (@Sorted_merge_sort _ _ _ string_leb_total).
  - intros lang_name lang_code e Hraise.
    unfold Limits.check_language, Limits.test_sizes.
    cbn [Limits.probe_lines]. rewrite Hraise. reflexivity.
Qed.

Lemma check_language_limits_output_witness :
  exists langs,
    Limits.check_language_limits
      (H := mock_wordfreq ["the"; "of"; "and"] [])
      (H0 := {| Limits.available_languages := Ok ["pt"; "en"; "es"] |})
    = ([Limits.Banner; Limits.Rule;
        Limits.LanguageHeader "English" "en";
        Limits.Requested 10000 3; Limits.Maximum 3;
        Limits.LanguageHeader "Spanish" "es";
        Limits.Requested 10000 3; Limits.Maximum 3;
        Limits.LanguageHeader "Portuguese" "pt";
        Limits.Requested 10000 3; Limits.Maximum 3;
        Limits.Rule; Limits.AllLanguages; Limits.Total 3]
       ++ map Limits.Language langs, Ok ()).
Proof.
  assert (Hsource : forall lang_code,
            holds_words (H := mock_wordfreq ["the"; "of"; "and"] []) lang_code 3).
  { intros lang_code size Hin.
    exists (take (Z.to_nat size) ["the"; "of"; "and"]).
    split; [reflexivity|].
    repeat (destruct Hin as [<-|Hin]; [vm_compute; reflexivity|]).
    destruct Hin. }
  destruct (proj1 (check_language_limits_output
                     (H := mock_wordfreq ["the"; "of"; "and"] [])
                     (H0 := {| Limits.available_languages := Ok ["pt"; "en"; "es"] |})
                     3 3 3)
              (Hsource "en") (Hsource "es") (Hsource "pt"))
    as (langs & Hrun & _).
  exists langs. exact Hrun.
Defined.

(** ** The flat export *)
Section FlatExport.
Context `{Wordfreq}.

Lemma scale_words_spec (language_code : string) (words : list string) :
  forall freq_data freq_data',
    Flat.scale_words language_code words freq_data = Ok freq_data' ->
    dom freq_data' = dom freq_data ∪ distinct_words words /\
    (forall w, w ∈ words ->
       exists f, word_frequency w language_code = Ok f /\
                 freq_data' !! w = Some (Flat.convert_frequency_to_scale f)) /\
    (forall w, w ∉ words -> freq_data' !! w = freq_data !! w).
Proof.
  unfold distinct_words.
  induction words as [|w0 words IH]; intros fd fd' Hrun.
  - cbn [Flat.scale_words] in Hrun. injection Hrun as <-.
    split; [set_solver|]. split; [intros w Hw; inversion Hw|reflexivity].
  - cbn [Flat.scale_words] in Hrun.
    destruct (word_frequency w0 language_code) as [f0|] eqn:Hf0;
      cbn [mbind result_bind] in Hrun; [|discriminate].
    destruct (IH _ _ Hrun) as (Hdom & Hin & Hout).
    split; [|split].
    + rewrite Hdom, dom_insert_L. set_solver.
    + intros w Hw. destruct (decide (w ∈ words)) as [Hw'|Hw'];
        [apply Hin, Hw'|].
      apply elem_of_cons in Hw as [->|Hw]; [|contradiction].
      exists f0. split; [exact Hf0|].
      rewrite (Hout w0 Hw'). apply lookup_insert_eq.
    + intros w Hw. apply not_elem_of_cons in Hw as [Hne Hw].
      rewrite (Hout w Hw). apply lookup_insert_ne. congruence.
Qed.

Lemma scale_words_runs (language_code : string) (words : list string) :
  (forall w, w ∈ words -> exists f, word_frequency w language_code = Ok f) ->
  forall freq_data,
    exists freq_data', Flat.scale_words language_code words freq_data = Ok freq_data'.
Proof.
  induction words as [|w0 words IH]; intros Hfreq fd; [eexists; reflexivity|].
  cbn [Flat.scale_words].
  destruct (Hfreq w0 ltac:(left)) as [f0 ->]. cbn [mbind result_bind].
  apply IH. intros w Hw. apply Hfreq. right. exact Hw.
Qed.

Context `{OS Flat.document}.

(** X6: the flat export of a language always returns a count, changes no path
    but the file of the language, and a count other than zero tells that
    the file is on disk with that many words. *)
Theorem export_language_frequencies_footprint
    (language_name language_code : string) (num_words : option Z)
    (fs : disk Flat.document) :
  exists count fs',
    Flat.export_language_frequencies language_name language_code num_words fs
    = (Ok count, fs') /\
    (forall path, path <> flat_file language_name -> fs' !! path = fs !! path) /\
    (count <> 0 ->
     exists freq_data,
       fs' !! flat_file language_name = Some freq_data /\
       Z.of_nat (size freq_data) = count).
Proof.
  unfold Flat.export_language_frequencies, try_except,
    Flat.export_language_frequencies_body.
  fold (flat_file language_name).
  unfold mbind, M_bind, lift, makedirs, dump_to, getsize_mb, mret, M_ret.
  destruct (match num_words with
            | Some n => top_n_list language_code n
            | None => top_n_list language_code (probe_max_words language_code)
            end) as [words|e].
  2: { exists 0, fs. split; [reflexivity|]. split; [reflexivity|congruence]. }
  destruct (Flat.scale_words language_code words ∅) as [freq_data|e].
  2: { exists 0, fs. split; [reflexivity|]. split; [reflexivity|congruence]. }
  destruct (io_fault "public").
  { exists 0, fs. split; [reflexivity|]. split; [reflexivity|congruence]. }
  destruct (io_fault (flat_file language_name)).
  { exists 0, fs. split; [reflexivity|]. split; [reflexivity|congruence]. }
  unfold mbind, M_bind, getsize, lift. rewrite lookup_insert_eq.
  destruct (int_truediv (encoded_size freq_data) 1024) as [kb|e].
  - eexists _, _. split; [reflexivity|]. split.
    + intros path Hpath. apply lookup_insert_ne. congruence.
    + intros _. exists freq_data. split; [apply lookup_insert_eq|reflexivity].
  - eexists _, _. split; [reflexivity|]. split.
    + intros path Hpath. apply lookup_insert_ne. congruence.
    + congruence.
Qed.

(** X7: with a word source and an operating system that do not fail, the
    flat export returns the number of distinct words and writes a file
    whose keys are the words and whose values are their frequencies on
    the 1-5 scale. *)
Theorem export_language_frequencies_success
    (language_name language_code : string) (num_words : option Z)
    (words : list string) (fs : disk Flat.document) :
  match num_words with
  | Some n => top_n_list language_code n
  | None => top_n_list language_code (probe_max_words language_code)
  end = Ok words ->
  (forall w, w ∈ words -> exists f, word_frequency w language_code = Ok f) ->
  io_fault "public" = None ->
  io_fault (flat_file language_name) = None ->
  (forall value, 0 <= encoded_size value < 2 ^ 63) ->
  exists freq_data,
    Flat.export_language_frequencies language_name language_code num_words fs
    = (Ok (Z.of_nat (size (distinct_words words))),
       <[flat_file language_name := freq_data]> fs) /\
    dom freq_data = distinct_words words /\
    (forall w f, w ∈ words -> word_frequency w language_code = Ok f ->
                 freq_data !! w = Some (Flat.convert_frequency_to_scale f)).
Proof.
  intros Hwords Hfreq Hdir Hfile Hsize.
  destruct (scale_words_runs language_code words Hfreq ∅) as [freq_data Hrun].
  destruct (scale_words_spec language_code words _ _ Hrun) as (Hdom & Hin & _).
  assert (Hdom' : dom freq_data = distinct_words words).
  { rewrite Hdom. set_solver. }
  exists freq_data. split; [|split; [exact Hdom'|]].
  - unfold Flat.export_language_frequencies, try_except,
      Flat.export_language_frequencies_body.
    fold (flat_file language_name).
    unfold mbind, M_bind, lift, makedirs, dump_to, getsize_mb, mret, M_ret.
    rewrite Hwords, Hrun, Hdir, Hfile.
    unfold mbind, M_bind, getsize, lift. rewrite lookup_insert_eq.
    rewrite int_truediv_small by (specialize (Hsize freq_data); lia).
    rewrite <- Hdom', size_dom. reflexivity.
  - intros w f Hw Hf. destruct (Hin w Hw) as (f' & Hf' & Hlook).
    rewrite Hf in Hf'. injection Hf' as <-. exact Hlook.
Qed.

End FlatExport.

Lemma export_language_frequencies_footprint_witness :
  exists fs' freq_data,
    Flat.export_language_frequencies
      (H := mock_wordfreq ["the"; "of"] []) (H0 := mock_os)
      "English" "en" (Some 2) ∅ = (Ok 2, fs') /\
    fs' !! flat_file "English" = Some freq_data /\
    Z.of_nat (size freq_data) = 2.
Proof.
  destruct (export_language_frequencies_footprint
              (H := mock_wordfreq ["the"; "of"] []) (H0 := mock_os)
              "English" "en" (Some 2) ∅)
    as (count & fs' & Hrun & _ & Hfile).
  assert (Hcount : count = 2).
  { pose proof (f_equal fst Hrun) as Hfst. vm_compute in Hfst.
    injection Hfst as <-. reflexivity. }
  subst count.
  destruct (Hfile ltac:(discriminate)) as (freq_data & Hlook & Hsize).
  exists fs', freq_data. split; [exact Hrun|]. split; [exact Hlook|exact Hsize].
Defined.

Lemma export_language_frequencies_success_witness :
  exists freq_data,
    Flat.export_language_frequencies
      (H := mock_wordfreq ["the"; "of"] []) (H0 := mock_os)
      "English" "en" (Some 2) ∅
    = (Ok (Z.of_nat (size (distinct_words ["the"; "of"]))),
       <[flat_file "English" := freq_data]> ∅).
Proof.
  destruct (export_language_frequencies_success
              (H := mock_wordfreq ["the"; "of"] []) (H0 := mock_os)
              "English" "en" (Some 2) ["the"; "of"] ∅)
    as (freq_data & Hrun & _).
  - reflexivity.
  - intros w _. eexists. reflexivity.
  - reflexivity.
  - reflexivity.
  - intros value. cbn. lia.
  - exists freq_data. exact Hrun.
Defined.

(** ** The word entries *)
Section Entries.
Context `{Wordfreq}.
Variable max_words : Z.

Lemma fill_tiers_fields (language_code : string) (total : Z) (ws : list string) :
  forall (i : Z) (ts ts' : Tiered.tiers),
    0 <= i -> tiers_filled i ts ->
    Tiered.fill_tiers language_code (tier_limits max_words) total i ws ts = Ok ts' ->
    exists es,
      tier_entries ts' = tier_entries ts ++ es /\
      Forall (fun e =>
                (exists f, word_frequency (Tiered.word e) language_code = Ok f /\
                           Tiered.frequency e
                           = Tiered.convert_frequency_to_detailed_scale f) /\
                Tiered.convert_to_user_scale_by_rank (Tiered.rank e) total
                = Ok (Tiered.user_frequency e) /\
                i < Tiered.rank e <= i + len ws) es.
Proof.
  induction ws as [|w ws IH]; intros i ts ts' Hi Hfilled Hrun.
  - cbn [Tiered.fill_tiers] in Hrun. injection Hrun as <-.
    exists []. rewrite app_nil_r. split; [reflexivity|constructor].
  - cbn [Tiered.fill_tiers] in Hrun.
    destruct (word_frequency w language_code) as [freq|] eqn:Hfreq;
      cbn [mbind result_bind] in Hrun; [|discriminate].
    destruct (Tiered.convert_to_user_scale_by_rank (i + 1) total) as [uf|] eqn:Huf;
      cbn [mbind result_bind] in Hrun; [|discriminate].
    match type of Hrun with
    | Tiered.fill_tiers _ _ _ _ _ (Tiered.append_to_tier _ _ ?e _) = _ =>
        set (entry := e) in *
    end.
    destruct (append_to_tier_filled max_words i entry ts Hi Hfilled)
      as [Hfilled' Hentries].
    destruct (IH (i + 1) _ ts' ltac:(lia) Hfilled' Hrun) as (es & Hes & Hall).
    assert (Hlen : len (w :: ws) = len ws + 1) by (unfold len; simpl; lia).
    assert (Hws : 0 <= len ws) by (unfold len; lia).
    exists (entry :: es). split.
    + rewrite Hes, Hentries, <- app_assoc. reflexivity.
    + constructor.
      * cbn [entry Tiered.word Tiered.frequency Tiered.rank Tiered.user_frequency].
        split; [exists freq; auto|]. split; [exact Huf|lia].
      * eapply Forall_impl; [exact Hall|].
        intros e (Hf & Hu & Hr). split; [exact Hf|]. split; [exact Hu|lia].
Qed.

End Entries.

Lemma rank_scale_rounded_mono (r r' T : Z) :
  1 <= T -> r <= r' -> rank_scale_rounded r' T <= rank_scale_rounded r T.
Proof.
  intros HT Hr. unfold rank_scale_rounded. cbv zeta.
  repeat match goal with
         | |- context [?x <=? ?y] => destruct (Z.leb_spec x y)
         end; lia.
Qed.

(** X8: every word entry of the tiers carries the detailed scale of the
    frequency of its word and the rank scale of its rank within the whole
    list; the rank is in 1..T, the user frequency is in 1..5 and never
    increases with the rank. *)
Theorem word_entries_fields `{Wordfreq} (language_code : string) (max_words : Z)
    (all_words : list string) (ts : Tiered.tiers) :
  let T := len all_words in
  Tiered.fill_tiers language_code
    {| Tiered.boundary_core := 15000; Tiered.boundary_extended := 65000;
       Tiered.boundary_complete := max_words |}
    T 0 all_words
    {| Tiered.core := []; Tiered.extended := []; Tiered.complete := [] |}
  = Ok ts ->
  (forall e, In e (Tiered.core ts ++ Tiered.extended ts ++ Tiered.complete ts) ->
     (exists f, word_frequency (Tiered.word e) language_code = Ok f /\
                Tiered.frequency e = Tiered.convert_frequency_to_detailed_scale f) /\
     Tiered.convert_to_user_scale_by_rank (Tiered.rank e) T
     = Ok (Tiered.user_frequency e) /\
     1 <= Tiered.rank e <= T /\
     1 <= Tiered.user_frequency e <= 5) /\
  (forall e1 e2,
     In e1 (Tiered.core ts ++ Tiered.extended ts ++ Tiered.complete ts) ->
     In e2 (Tiered.core ts ++ Tiered.extended ts ++ Tiered.complete ts) ->
     Tiered.rank e1 <= Tiered.rank e2 ->
     Tiered.user_frequency e2 <= Tiered.user_frequency e1).
Proof.
  intros T Hrun.
  destruct (fill_tiers_fields max_words language_code T all_words 0
              {| Tiered.core := []; Tiered.extended := []; Tiered.complete := [] |}
              ts ltac:(lia) ltac:(repeat split; reflexivity) Hrun)
    as (es & Hes & Hall).
  change (tier_entries ts = [] ++ es) in Hes. cbn [app] in Hes.
  change (Tiered.core ts ++ Tiered.extended ts ++ Tiered.complete ts)
    with (tier_entries ts).
  rewrite Hes. rewrite Forall_forall in Hall.
  assert (Hfields : forall e, In e es ->
            Tiered.user_frequency e = rank_scale_rounded (Tiered.rank e) T /\
            1 <= Tiered.rank e <= T).
  { intros e He. apply list_elem_of_In in He.
    destruct (Hall e He) as (_ & Hu & Hr). fold T in Hr.
    rewrite convert_to_user_scale_by_rank_rounded in Hu by lia.
    injection Hu as <-. split; [reflexivity|lia]. }
  split.
  - intros e He. destruct (Hfields e He) as [Hu Hr].
    apply list_elem_of_In in He. destruct (Hall e He) as (Hf & Hc & _).
    split; [exact Hf|]. split; [exact Hc|]. split; [exact Hr|].
    rewrite Hu. unfold rank_scale_rounded. cbv zeta.
    repeat match goal with |- context [if ?c then _ else _] => destruct c end; lia.
  - intros e1 e2 He1 He2 Hr.
    destruct (Hfields e1 He1) as [-> Hr1]. destruct (Hfields e2 He2) as [-> Hr2].
    apply rank_scale_rounded_mono; lia.
Qed.

Lemma word_entries_fields_witness :
  exists ts,
    Tiered.fill_tiers (H := mock_wordfreq ["the"; "of"; "and"] []) "en"
      {| Tiered.boundary_core := 15000; Tiered.boundary_extended := 65000;
         Tiered.boundary_complete := 3 |}
      3 0 ["the"; "of"; "and"]
      {| Tiered.core := []; Tiered.extended := []; Tiered.complete := [] |}
    = Ok ts /\
    forall e, In e (Tiered.core ts ++ Tiered.extended ts ++ Tiered.complete ts) ->
              1 <= Tiered.user_frequency e <= 5.
Proof.
  destruct (Tiered.fill_tiers (H := mock_wordfreq ["the"; "of"; "and"] []) "en"
      {| Tiered.boundary_core := 15000; Tiered.boundary_extended := 65000;
         Tiered.boundary_complete := 3 |}
      3 0 ["the"; "of"; "and"]
      {| Tiered.core := []; Tiered.extended := []; Tiered.complete := [] |})
    as [ts|e] eqn:Hrun; [|vm_compute in Hrun; discriminate Hrun].
  exists ts. split; [reflexivity|]. intros e He.
  apply (proj1 (word_entries_fields (H := mock_wordfreq ["the"; "of"; "and"] [])
                  "en" 3 ["the"; "of"; "and"] ts Hrun) e He).
Defined.

(** ** The tier_info block and the lookup keys *)

Lemma last_map {A B} (f : A -> B) (l : list A) (d : A) :
  List.last (map f l) (f d) = f (List.last l d).
Proof.
  induction l as [|x l IH]; [reflexivity|].
  destruct l as [|y l]; [reflexivity|]. exact IH.
Qed.

Lemma last_seqZ (a n d : Z) : 0 < n -> List.last (seqZ a n) d = a + n - 1.
Proof.
  intros Hn. replace n with (Z.of_nat (S (Z.to_nat (n - 1)))) by lia.
  rewrite seqZ_S, last_last. lia.
Qed.

Lemma tier_info_of_ranks (tier_name : string) (tier_data : list Tiered.word_entry)
    (a n : Z) :
  map Tiered.rank tier_data = seqZ a n -> 0 < n ->
  Tiered.tier_info (Tiered.make_tier_export tier_name tier_data)
  = {| Tiered.name := tier_name; Tiered.word_count := n;
       Tiered.rank_range := (a, a + n - 1) |}.
Proof.
  intros Hranks Hn. unfold Tiered.make_tier_export. cbn [Tiered.tier_info].
  assert (Hlen : len tier_data = n).
  { unfold len. rewrite <- (length_map Tiered.rank), Hranks, length_seqZ. lia. }
  destruct tier_data as [|first tier_data].
  { unfold len in Hlen. cbn in Hlen. lia. }
  f_equal; [exact Hlen|].
  pose proof (last_map Tiered.rank (first :: tier_data) first) as Hlast.
  rewrite Hranks, last_seqZ in Hlast by exact Hn.
  rewrite (seqZ_cons a n Hn) in Hranks. cbn [map] in Hranks.
  injection Hranks as Hfirst _. rewrite <- Hlast, Hfirst. reflexivity.
Qed.

Lemma fill_tiers_empty_tiers `{Wordfreq} (language_code : string) (max_words : Z)
    (all_words : list string) (ts : Tiered.tiers) :
  Tiered.fill_tiers language_code (tier_limits max_words) (len all_words) 0
    all_words
    {| Tiered.core := []; Tiered.extended := []; Tiered.complete := [] |}
  = Ok ts ->
  (len all_words <= 15000 -> Tiered.extended ts = []) /\
  (len all_words <= 65000 -> Tiered.complete ts = []) /\
  (len all_words = 0 -> Tiered.core ts = []) /\
  (1 <= len all_words -> Tiered.core ts <> []).
Proof.
  intros Hrun.
  pose proof (fill_tiers_spec max_words language_code (len all_words) all_words 0
                {| Tiered.core := []; Tiered.extended := [];
                   Tiered.complete := [] |} ts
                ltac:(lia) ltac:(repeat split; reflexivity) Hrun)
    as ((Hc & He & Hk) & _).
  repeat split; intros HT; try (apply len_nil_inv; lia).
  intros Hnil. rewrite Hnil in Hc. change (len (@nil Tiered.word_entry)) with 0 in Hc.
  lia.
Qed.

(** X9: the tier_info block of each tier that is written: the core tier
    holds the ranks 1 to min(15000, T), the extended tier the ranks 15001
    to min(65000, T), the complete tier the ranks 65001 to T, and the word
    count is the length of the range. *)
Theorem tier_info_ranges `{Wordfreq} (language_code : string) (max_words : Z)
    (all_words : list string) (ts : Tiered.tiers) :
  let T := len all_words in
  Tiered.fill_tiers language_code
    {| Tiered.boundary_core := 15000; Tiered.boundary_extended := 65000;
       Tiered.boundary_complete := max_words |}
    T 0 all_words
    {| Tiered.core := []; Tiered.extended := []; Tiered.complete := [] |}
  = Ok ts ->
  (1 <= T ->
   Tiered.tier_info (Tiered.make_tier_export "core" (Tiered.core ts))
   = {| Tiered.name := "core"; Tiered.word_count := Z.min 15000 T;
        Tiered.rank_range := (1, Z.min 15000 T) |}) /\
  (15000 < T ->
   Tiered.tier_info (Tiered.make_tier_export "extended" (Tiered.extended ts))
   = {| Tiered.name := "extended"; Tiered.word_count := Z.min 65000 T - 15000;
        Tiered.rank_range := (15001, Z.min 65000 T) |}) /\
  (65000 < T ->
   Tiered.tier_info (Tiered.make_tier_export "complete" (Tiered.complete ts))
   = {| Tiered.name := "complete"; Tiered.word_count := T - 65000;
        Tiered.rank_range := (65001, T) |}).
Proof.
  intros T Hrun.
  pose proof (fill_tiers_spec max_words language_code T all_words 0
                {| Tiered.core := []; Tiered.extended := [];
                   Tiered.complete := [] |} ts
                ltac:(lia) ltac:(repeat split; reflexivity) Hrun)
    as (_ & Hcore & Hext & Hcomp & _).
  cbn [Tiered.core Tiered.extended Tiered.complete map app] in *.
  fold T in Hcore, Hext, Hcomp.
  repeat split.
  - intros HT. rewrite (tier_info_of_ranks "core" _ 1 (Z.min 15000 T)); [|rewrite Hcore; f_equal; lia|lia].
    do 2 f_equal. lia.
  - intros HT. rewrite (tier_info_of_ranks "extended" _ 15001 (Z.min 65000 T - 15000));
      [|rewrite Hext; f_equal; lia|lia].
    do 2 f_equal. lia.
  - intros HT. rewrite (tier_info_of_ranks "complete" _ 65001 (T - 65000));
      [|rewrite Hcomp; f_equal; lia|lia].
    do 2 f_equal. lia.
Qed.

Lemma tier_info_ranges_witness :
  exists ts,
    Tiered.fill_tiers (H := mock_wordfreq ["the"; "of"; "and"] []) "en"
      {| Tiered.boundary_core := 15000; Tiered.boundary_extended := 65000;
         Tiered.boundary_complete := 3 |}
      3 0 ["the"; "of"; "and"]
      {| Tiered.core := []; Tiered.extended := []; Tiered.complete := [] |}
    = Ok ts /\
    Tiered.tier_info (Tiered.make_tier_export "core" (Tiered.core ts))
    = {| Tiered.name := "core"; Tiered.word_count := Z.min 15000 3;
         Tiered.rank_range := (1, Z.min 15000 3) |}.
Proof.
  destruct (Tiered.fill_tiers (H := mock_wordfreq ["the"; "of"; "and"] []) "en"
      {| Tiered.boundary_core := 15000; Tiered.boundary_extended := 65000;
         Tiered.boundary_complete := 3 |}
      3 0 ["the"; "of"; "and"]
      {| Tiered.core := []; Tiered.extended := []; Tiered.complete := [] |})
    as [ts|e] eqn:Hrun; [|vm_compute in Hrun; discriminate Hrun].
  exists ts. split; [reflexivity|].
  apply (proj1 (tier_info_ranges (H := mock_wordfreq ["the"; "of"; "and"] [])
                  "en" 3 ["the"; "of"; "and"] ts Hrun)).
  vm_compute. discriminate.
Defined.

(** X10: the keys of the lookup object of a tier are the words of its array,
    and with distinct words there are as many keys as the word count of
    the tier_info block says. *)
Theorem lookup_keys (tier_name : string) (tier_data : list Tiered.word_entry) :
  let t := Tiered.make_tier_export tier_name tier_data in
  dom (Tiered.lookup t) = distinct_words (map Tiered.word (Tiered.words t)) /\
  (NoDup (map Tiered.word (Tiered.words t)) ->
   Z.of_nat (size (Tiered.lookup t)) = Tiered.word_count (Tiered.tier_info t)).
Proof.
  cbn [Tiered.make_tier_export Tiered.words Tiered.lookup Tiered.tier_info
       Tiered.word_count].
  assert (Hdom : dom (Tiered.lookup_of tier_data)
                 = distinct_words (map Tiered.word tier_data)).
  { unfold distinct_words.
    induction tier_data as [|e tier_data IH] using rev_ind; [reflexivity|].
    rewrite lookup_of_snoc, dom_insert_L, IH, map_app, list_to_set_app_L.
    cbn [map list_to_set]. set_solver. }
  split; [exact Hdom|].
  intros Hnd. rewrite <- size_dom, Hdom. unfold distinct_words.
  rewrite size_list_to_set by exact Hnd.
  unfold len. rewrite length_map. reflexivity.
Qed.

Lemma lookup_keys_witness :
  let e1 := {| Tiered.word := "the"; Tiered.frequency := B64.lit 100 (-1);
               Tiered.rank := 1; Tiered.user_frequency := 5 |} in
  let e2 := {| Tiered.word := "of"; Tiered.frequency := B64.lit 90 (-1);
               Tiered.rank := 2; Tiered.user_frequency := 4 |} in
  Z.of_nat (size (Tiered.lookup (Tiered.make_tier_export "core" [e1; e2]))) = 2.
Proof.
  intros e1 e2.
  refine (proj2 (lookup_keys "core" [e1; e2]) _).
  cbn. apply NoDup_cons. split; [|apply NoDup_singleton].
  intros Hin. apply list_elem_of_singleton in Hin. discriminate Hin.
Defined.

(** ** The tiered export *)

Lemma append_cancel_l (s a b : string) : s +:+ a = s +:+ b -> a = b.
Proof.
  induction s as [|c s IH]; cbn; intros Heq; [exact Heq|].
  injection Heq as Heq. apply IH, Heq.
Qed.

Lemma tier_files_distinct (language_name : string) :
  NoDup [tier_file language_name "core"; tier_file language_name "extended";
         tier_file language_name "complete"; metadata_file language_name].
Proof.
  assert (Hne : forall a b : string,
             a <> b ->
             "public/wordfreq-tiers/" +:+ lower language_name +:+ a
             <> "public/wordfreq-tiers/" +:+ lower language_name +:+ b).
  { intros a b Hab Heq. apply Hab.
    apply (append_cancel_l (lower language_name)).
    apply (append_cancel_l "public/wordfreq-tiers/"). exact Heq. }
  unfold tier_file, metadata_file.
  repeat (apply NoDup_cons; split;
          [rewrite ?elem_of_cons, elem_of_nil;
           intros Hin; repeat destruct Hin as [Hin|Hin]; try exact Hin;
           revert Hin; apply Hne; discriminate|]).
  apply NoDup_nil_2.
Qed.

Section TieredExport.
Context `{Wordfreq} `{OS Tiered.document}.

(** What one tier does to the disk and to the [tier_info] dictionary. *)
Lemma export_tier_cases (language_name : string)
    (state : float * gmap string Tiered.tier_summary)
    (tier_name : string) (tier_data : list Tiered.word_entry)
    (fs : disk Tiered.document) :
  let run := Tiered.export_tier language_name state (tier_name, tier_data) fs in
  let file := Tiered.TierFile (Tiered.make_tier_export tier_name tier_data) in
  (tier_data = [] /\ run = (Ok state, fs)) \/
  (tier_data <> [] /\ snd run = fs /\
   exists e, io_fault (tier_file language_name tier_name) = Some e /\
             fst run = Raise e) \/
  (tier_data <> [] /\
   io_fault (tier_file language_name tier_name) = None /\
   snd run = <[tier_file language_name tier_name := file]> fs /\
   match fst run with
   | Ok state' => dom (snd state') = {[tier_name]} ∪ dom (snd state)
   | Raise e => int_truediv (encoded_size file) 1024 = Raise e
   end).
Proof.
  intros run file. subst run. unfold Tiered.export_tier.
  destruct state as [total_size info].
  destruct tier_data as [|e tier_data]; [left; split; reflexivity|].
  right. fold (tier_file language_name tier_name). fold file.
  unfold mbind, M_bind, dump_to.
  destruct (io_fault (tier_file language_name tier_name)) as [err|] eqn:Hio.
  { left. split; [discriminate|]. split; [reflexivity|]. exists err.
    split; reflexivity. }
  right. split; [discriminate|]. split; [reflexivity|].
  unfold getsize_mb, mbind, M_bind, getsize, lift.
  rewrite lookup_insert_eq.
  destruct (int_truediv (encoded_size file) 1024) as [kb|err]; cbn [fst snd].
  - split; [reflexivity|]. apply dom_insert_L.
  - split; reflexivity.
Qed.

(** The tiers, one after the other: only the files of the tiers that are
    not empty are written, and when no write fails every one of them is
    on disk and listed. *)
Lemma export_tiers_spec (language_name : string)
    (items : list (string * list Tiered.word_entry)) :
  forall state fs,
    let run := Tiered.export_tiers language_name state items fs in
    (forall path,
       (forall tier_name tier_data,
          In (tier_name, tier_data) items -> tier_data <> [] ->
          path <> tier_file language_name tier_name) ->
       snd run !! path = fs !! path) /\
    (forall state',
       fst run = Ok state' ->
       NoDup (map (fun item => tier_file language_name (fst item)) items) ->
       (forall tier_name tier_data,
          In (tier_name, tier_data) items -> tier_data <> [] ->
          snd run !! tier_file language_name tier_name
          = Some (Tiered.TierFile (Tiered.make_tier_export tier_name tier_data))) /\
       (forall tier_name,
          tier_name ∈ dom (snd state') <->
          tier_name ∈ dom (snd state) \/
          exists tier_data, In (tier_name, tier_data) items /\ tier_data <> [])).
Proof.
  induction items as [|[tn data] items IH]; intros state fs run.
  - subst run. cbn [Tiered.export_tiers]. unfold mret, M_ret. cbn [fst snd].
    split; [reflexivity|]. intros state' Hst _. injection Hst as <-.
    split; [intros ? ? []|]. intros tn. split; [auto|].
    intros [Hin|(d & [] & _)]. exact Hin.
  - subst run. cbn [Tiered.export_tiers]. unfold mbind, M_bind.
    pose proof (export_tier_cases language_name state tn data fs) as Hcase.
    cbv zeta in Hcase.
    destruct (Tiered.export_tier language_name state (tn, data) fs)
      as [[state1|err] fs1] eqn:Hstep; cbn [fst snd] in *.
    + specialize (IH state1 fs1). cbv zeta in IH. destruct IH as [IHpath IHok].
      assert (Hfs1 : (data = [] /\ state1 = state /\ fs1 = fs) \/
                     (data <> [] /\
                      fs1 = <[tier_file language_name tn :=
                                Tiered.TierFile (Tiered.make_tier_export tn data)]> fs /\
                      dom (snd state1) = {[tn]} ∪ dom (snd state))).
      { destruct Hcase as [[Hd Heq]|[(_ & _ & e & _ & He)|(Hd & _ & Hfs & Hdom)]].
        - left. injection Heq as -> ->. auto.
        - discriminate He.
        - right. auto. }
      split.
      * intros path Hpath. rewrite IHpath.
        2: { intros tn' d' Hin Hd'. apply (Hpath tn' d'); [right; exact Hin|exact Hd']. }
        destruct Hfs1 as [(_ & _ & ->)|(Hd & -> & _)]; [reflexivity|].
        apply lookup_insert_ne. intros Heq. symmetry in Heq. revert Heq.
        apply (Hpath tn data); [left; reflexivity|exact Hd].
      * intros state' Hst Hnd. cbn [map fst] in Hnd.
        apply NoDup_cons in Hnd as [Hfresh Hnd].
        destruct (IHok state' Hst Hnd) as [IHfiles IHdom].
        split.
        -- intros tn' d' [Heq|Hin] Hd'.
           ++ injection Heq as <- <-.
              rewrite IHpath.
              2: { intros tn' d' Hin _ Heq. apply Hfresh.
                   apply list_elem_of_In, in_map_iff.
                   exists (tn', d'). split; [symmetry; exact Heq|exact Hin]. }
              destruct Hfs1 as [(Hd & _)|(_ & -> & _)]; [contradiction|].
              apply lookup_insert_eq.
           ++ apply IHfiles; assumption.
        -- intros tn'. rewrite IHdom.
           destruct Hfs1 as [(Hd & -> & _)|(Hd & _ & Hdom)].
           ++ split.
              ** intros [Hin|(d' & Hin & Hd')]; [left; exact Hin|].
                 right. exists d'. split; [right; exact Hin|exact Hd'].
              ** intros [Hin|(d' & [Heq|Hin] & Hd')]; [left; exact Hin| |].
                 --- injection Heq as _ <-. contradiction.
                 --- right. exists d'. auto.
           ++ rewrite Hdom, elem_of_union, elem_of_singleton. split.
              ** intros [[->|Hin]|(d' & Hin & Hd')].
                 --- right. exists data. split; [left; reflexivity|exact Hd].
                 --- left. exact Hin.
                 --- right. exists d'. split; [right; exact Hin|exact Hd'].
              ** intros [Hin|(d' & [Heq|Hin] & Hd')].
                 --- left. right. exact Hin.
                 --- injection Heq as <- _. left. left. reflexivity.
                 --- right. exists d'. auto.
    + split; [|discriminate].
      intros path Hpath.
      destruct Hcase as [[_ Heq]|[(_ & -> & _)|(Hd & _ & -> & _)]];
        [discriminate Heq|reflexivity|].
      apply lookup_insert_ne. intros Heq. symmetry in Heq. revert Heq.
      apply (Hpath tn data); [left; reflexivity|exact Hd].
Qed.

End TieredExport.

Section TieredRun.
Context `{Wordfreq} `{OS Tiered.document}.

Lemma export_tiered_language_data_run (language_name language_code : string)
    (fs : disk Tiered.document) :
  let run := Tiered.export_tiered_language_data language_name language_code fs in
  let max_words := probe_max_words language_code in
  run = (Ok 0, fs) \/
  exists all_words ts,
    top_n_list language_code max_words = Ok all_words /\
    Tiered.fill_tiers language_code (tier_limits max_words) (len all_words) 0
      all_words
      {| Tiered.core := []; Tiered.extended := []; Tiered.complete := [] |}
    = Ok ts /\
    io_fault "public/wordfreq-tiers" = None /\
    let tiers_run :=
      Tiered.export_tiers language_name (B64.zero, ∅)
        [("core", Tiered.core ts); ("extended", Tiered.extended ts);
         ("complete", Tiered.complete ts)] fs in
    ((fst run = Ok 0 /\ snd run = snd tiers_run /\
      ((exists e, fst tiers_run = Raise e) \/
       (exists e, io_fault (metadata_file language_name) = Some e))) \/
     (exists state,
        fst tiers_run = Ok state /\
        io_fault (metadata_file language_name) = None /\
        run = (Ok (len all_words),
               <[metadata_file language_name :=
                   Tiered.MetadataFile
                     {| Tiered.language := language_name;
                        Tiered.language_code := language_code;
                        Tiered.total_words := len all_words;
                        Tiered.total_size_mb := fst state;
                        Tiered.metadata_tiers := snd state;
                        Tiered.frequency_scale :=
                          ("1.0-10.0 with decimals", "1-5 integer scale");
                        Tiered.metadata_tier_boundaries :=
                          tier_limits max_words |}]> (snd tiers_run)))).
Proof.
  intros run max_words. subst run.
  unfold Tiered.export_tiered_language_data, try_except,
    Tiered.export_tiered_language_data_body.
  fold max_words. fold (metadata_file language_name).
  fold (tier_limits max_words).
  unfold mbind, M_bind, lift, makedirs, dump_to, mret, M_ret.
  destruct (top_n_list language_code max_words) as [all_words|e] eqn:Htop;
    [|left; reflexivity].
  destruct (Tiered.fill_tiers language_code (tier_limits max_words)
              (len all_words) 0 all_words _) as [ts|e] eqn:Hfill;
    [|left; reflexivity].
  destruct (io_fault "public/wordfreq-tiers") as [e|] eqn:Hdir;
    [left; reflexivity|].
  right. exists all_words, ts. split; [reflexivity|]. split; [exact Hfill|].
  split; [reflexivity|]. cbv zeta.
  destruct (Tiered.export_tiers language_name (B64.zero, ∅) _ fs)
    as [[[total_size info]|e] fs1]; cbn [fst snd].
  - destruct (io_fault (metadata_file language_name)) as [e|] eqn:Hmeta.
    + left. split; [reflexivity|]. split; [reflexivity|]. right. eauto.
    + right. exists (total_size, info). cbn [fst snd].
      split; [reflexivity|]. split; reflexivity.
  - left. split; [reflexivity|]. split; [reflexivity|]. left. eauto.
Qed.

End TieredRun.

Section TieredFacts.
Context `{Wordfreq} `{OS Tiered.document}.

Lemma tier_items_distinct (language_name : string) (ts : Tiered.tiers) :
  NoDup (map (fun item : string * list Tiered.word_entry =>
                tier_file language_name (fst item))
             [("core", Tiered.core ts); ("extended", Tiered.extended ts);
              ("complete", Tiered.complete ts)]).
Proof.
  pose proof (tier_files_distinct language_name) as Hnd. cbn [map fst].
  apply (NoDup_app [_; _; _] [_]) in Hnd. tauto.
Qed.

(** X11: the tiered export of a language always returns a count, changes no
    path but the three tier files and the metadata file of the language,
    and a count other than zero tells that the metadata, with that total,
    and the core tier, with min(15000, count) words, are on disk. *)
Theorem export_tiered_language_data_footprint
    (language_name language_code : string) (fs : disk Tiered.document) :
  exists count fs',
    Tiered.export_tiered_language_data language_name language_code fs
    = (Ok count, fs') /\
    (forall path,
       ~ In path [tier_file language_name "core";
                  tier_file language_name "extended";
                  tier_file language_name "complete";
                  metadata_file language_name] ->
       fs' !! path = fs !! path) /\
    (count <> 0 ->
     exists m t,
       fs' !! metadata_file language_name = Some (Tiered.MetadataFile m) /\
       Tiered.total_words m = count /\
       fs' !! tier_file language_name "core" = Some (Tiered.TierFile t) /\
       Tiered.word_count (Tiered.tier_info t) = Z.min 15000 count).
Proof.
  pose proof (export_tiered_language_data_run language_name language_code fs)
    as Hrun. cbv zeta in Hrun.
  pose proof (tier_files_distinct language_name) as Hnd.
  set (run := Tiered.export_tiered_language_data language_name language_code fs)
    in *.
  assert (Hitems : forall ts path,
            ~ In path [tier_file language_name "core";
                       tier_file language_name "extended";
                       tier_file language_name "complete";
                       metadata_file language_name] ->
            forall tier_name (tier_data : list Tiered.word_entry),
              In (tier_name, tier_data)
                 [("core", Tiered.core ts); ("extended", Tiered.extended ts);
                  ("complete", Tiered.complete ts)] ->
              tier_data <> [] -> path <> tier_file language_name tier_name).
  { intros ts path Hpath tn d Hin _ ->. apply Hpath.
    destruct Hin as [Heq|[Heq|[Heq|[]]]]; injection Heq as <- _;
      cbn; tauto. }
  destruct Hrun as [Hrun|(all_words & ts & Htop & Hfill & Hdir & Hrun)].
  { exists 0, fs. split; [exact Hrun|]. split; [reflexivity|congruence]. }
  pose proof (export_tiers_spec language_name
                [("core", Tiered.core ts); ("extended", Tiered.extended ts);
                 ("complete", Tiered.complete ts)] (B64.zero, ∅) fs)
    as [Hpaths Hok]. cbv zeta in Hpaths, Hok.
  destruct Hrun as [(Hcount & Hfs & _)|(state & Hstate & Hmeta & Hrun)].
  - exists 0, (snd run). split; [rewrite <- Hcount; apply surjective_pairing|].
    split; [|congruence].
    intros path Hpath. rewrite Hfs. apply Hpaths, Hitems, Hpath.
  - eexists _, _. split; [exact Hrun|]. split.
    + intros path Hpath. rewrite lookup_insert_ne by (cbn in Hpath; tauto).
      apply Hpaths, Hitems, Hpath.
    + intros Hcount. eexists _, _. split; [apply lookup_insert_eq|].
      split; [reflexivity|].
      destruct (fill_tiers_empty_tiers language_code _ all_words ts Hfill)
        as (_ & _ & _ & Hcore).
      assert (HT : 0 <= len all_words) by (unfold len; lia).
      destruct (Hok state Hstate (tier_items_distinct language_name ts))
        as [Hfiles _].
      rewrite lookup_insert_ne.
      2: { apply NoDup_cons in Hnd as [Hfresh _]. intros Heq. apply Hfresh.
           rewrite <- Heq. set_solver. }
      split.
      * apply (Hfiles "core" (Tiered.core ts)); [left; reflexivity|].
        apply Hcore. lia.
      * cbn [Tiered.make_tier_export Tiered.tier_info Tiered.word_count].
        pose proof (fill_tiers_spec _ language_code (len all_words) all_words 0
                      {| Tiered.core := []; Tiered.extended := [];
                         Tiered.complete := [] |} ts
                      ltac:(lia) ltac:(repeat split; reflexivity) Hfill)
          as ((Hc & _) & _).
        rewrite Hc. lia.
Qed.

(** X12: a short word list leaves the files of the upper tiers alone: up to
    15000 words the extended file is not written, up to 65000 words the
    complete file is not written, and no word at all leaves the core file
    as it was. *)
Theorem small_language_writes_fewer_tiers
    (language_name language_code : string) (all_words : list string)
    (fs : disk Tiered.document) :
  top_n_list language_code (probe_max_words language_code) = Ok all_words ->
  let fs' := snd (Tiered.export_tiered_language_data language_name
                    language_code fs) in
  (len all_words <= 15000 ->
   fs' !! tier_file language_name "extended"
   = fs !! tier_file language_name "extended") /\
  (len all_words <= 65000 ->
   fs' !! tier_file language_name "complete"
   = fs !! tier_file language_name "complete") /\
  (all_words = [] ->
   fs' !! tier_file language_name "core" = fs !! tier_file language_name "core").
Proof.
  intros Htop fs'. subst fs'.
  pose proof (export_tiered_language_data_run language_name language_code fs)
    as Hrun. cbv zeta in Hrun.
  pose proof (tier_files_distinct language_name) as Hnd.
  assert (Hdistinct : forall a b,
            In a ["core"; "extended"; "complete"] ->
            In b ["core"; "extended"; "complete"] ->
            tier_file language_name a = tier_file language_name b -> a = b).
  { intros a b Ha Hb Heq. unfold tier_file in Heq.
    apply (append_cancel_l "public/wordfreq-tiers/"),
          (append_cancel_l (lower language_name)) in Heq.
    destruct Ha as [<-|[<-|[<-|[]]]], Hb as [<-|[<-|[<-|[]]]];
      try reflexivity; discriminate Heq. }
  assert (Hmeta_ne : forall a, In a ["core"; "extended"; "complete"] ->
            tier_file language_name a <> metadata_file language_name).
  { intros a Ha Heq. unfold tier_file, metadata_file in Heq.
    apply (append_cancel_l "public/wordfreq-tiers/"),
          (append_cancel_l (lower language_name)) in Heq.
    destruct Ha as [<-|[<-|[<-|[]]]]; discriminate Heq. }
  set (run := Tiered.export_tiered_language_data language_name language_code fs)
    in *.
  destruct Hrun as [Hrun|(all_words' & ts & Htop' & Hfill & Hdir & Hrun)].
  { rewrite Hrun. repeat split; reflexivity. }
  rewrite Htop in Htop'. injection Htop' as <-.
  destruct (fill_tiers_empty_tiers language_code _ all_words ts Hfill)
    as (Hext & Hcomp & Hcore & _).
  pose proof (export_tiers_spec language_name
                [("core", Tiered.core ts); ("extended", Tiered.extended ts);
                 ("complete", Tiered.complete ts)] (B64.zero, ∅) fs)
    as [Hpaths _]. cbv zeta in Hpaths.
  assert (Hfs : forall a, In a ["core"; "extended"; "complete"] ->
            snd run !! tier_file language_name a
            = snd (Tiered.export_tiers language_name (B64.zero, ∅)
                     [("core", Tiered.core ts); ("extended", Tiered.extended ts);
                      ("complete", Tiered.complete ts)] fs)
              !! tier_file language_name a).
  { intros a Ha.
    destruct Hrun as [(_ & -> & _)|(state & _ & _ & ->)]; [reflexivity|].
    cbn [snd]. apply lookup_insert_ne. intros Heq. symmetry in Heq.
    revert Heq. apply Hmeta_ne, Ha. }
  assert (Hskip : forall a,
            In a ["core"; "extended"; "complete"] ->
            (forall d, In (a, d) [("core", Tiered.core ts);
                                  ("extended", Tiered.extended ts);
                                  ("complete", Tiered.complete ts)] -> d = []) ->
            snd run !! tier_file language_name a
            = fs !! tier_file language_name a).
  { intros a Ha Hempty. rewrite (Hfs a Ha). apply Hpaths.
    intros tn d Hin Hd Heq.
    assert (Htn : In tn ["core"; "extended"; "complete"]).
    { destruct Hin as [E|[E|[E|[]]]]; injection E as <- _; cbn; tauto. }
    apply (Hdistinct a tn Ha Htn) in Heq. subst tn.
    apply Hd, (Hempty d Hin). }
  repeat split.
  - intros HT. apply Hskip; [cbn; tauto|].
    intros d [E|[E|[E|[]]]]; try discriminate E.
    injection E as <-. apply Hext, HT.
  - intros HT. apply Hskip; [cbn; tauto|].
    intros d [E|[E|[E|[]]]]; try discriminate E.
    injection E as <-. apply Hcomp, HT.
  - intros ->. apply Hskip; [cbn; tauto|].
    intros d [E|[E|[E|[]]]]; try discriminate E.
    injection E as <-. apply Hcore. reflexivity.
Qed.

Lemma export_tiers_runs (language_name : string)
    (items : list (string * list Tiered.word_entry)) :
  (forall path, io_fault path = None) ->
  (forall value : Tiered.document, 0 <= encoded_size value < 2 ^ 63) ->
  forall state fs,
  exists state',
    fst (Tiered.export_tiers language_name state items fs) = Ok state'.
Proof.
  intros Hio Hsize.
  induction items as [|[tn data] items IH]; intros state fs.
  - exists state. reflexivity.
  - cbn [Tiered.export_tiers]. unfold mbind, M_bind.
    pose proof (export_tier_cases language_name state tn data fs) as Hcase.
    cbv zeta in Hcase.
    destruct (Tiered.export_tier language_name state (tn, data) fs)
      as [[state1|err] fs1]; cbn [fst snd] in *; [apply IH|].
    exfalso.
    destruct Hcase as [[_ Heq]|[(_ & _ & e & Hfault & _)|(_ & _ & _ & Hdiv)]].
    + discriminate Heq.
    + rewrite Hio in Hfault. discriminate Hfault.
    + rewrite int_truediv_small in Hdiv; [discriminate|lia|].
      match type of Hdiv with
      | context [encoded_size ?v] => specialize (Hsize v)
      end. lia.
Qed.

(** X13: with a word source and an operating system that do not fail, the
    tiered export returns the number of words, writes the file of every
    tier that holds a word and no file for an empty tier, and writes the
    metadata, which lists exactly the tiers that were written. *)
Theorem export_tiered_language_data_success
    (language_name language_code : string) (all_words : list string)
    (fs : disk Tiered.document) :
  top_n_list language_code (probe_max_words language_code) = Ok all_words ->
  (forall w, In w all_words ->
             exists f, word_frequency w language_code = Ok f) ->
  (forall path, io_fault path = None) ->
  (forall value : Tiered.document, 0 <= encoded_size value < 2 ^ 63) ->
  exists ts m fs',
    Tiered.fill_tiers language_code
      (tier_limits (probe_max_words language_code)) (len all_words) 0
      all_words
      {| Tiered.core := []; Tiered.extended := []; Tiered.complete := [] |}
    = Ok ts /\
    Tiered.export_tiered_language_data language_name language_code fs
    = (Ok (len all_words), fs') /\
    fs' !! metadata_file language_name = Some (Tiered.MetadataFile m) /\
    Tiered.language m = language_name /\
    Tiered.language_code m = language_code /\
    Tiered.total_words m = len all_words /\
    Tiered.metadata_tier_boundaries m
    = tier_limits (probe_max_words language_code) /\
    forall tier_name tier_data,
      In (tier_name, tier_data)
         [("core", Tiered.core ts); ("extended", Tiered.extended ts);
          ("complete", Tiered.complete ts)] ->
      (tier_data <> [] ->
       fs' !! tier_file language_name tier_name
       = Some (Tiered.TierFile (Tiered.make_tier_export tier_name tier_data)) /\
       tier_name ∈ dom (Tiered.metadata_tiers m)) /\
      (tier_data = [] ->
       fs' !! tier_file language_name tier_name
       = fs !! tier_file language_name tier_name /\
       tier_name ∉ dom (Tiered.metadata_tiers m)).
Proof.
  intros Htop Hfreq Hio Hsize.
  set (max_words := probe_max_words language_code) in *.
  destruct (fill_tiers_runs max_words language_code (len all_words) all_words 0
              {| Tiered.core := []; Tiered.extended := [];
                 Tiered.complete := [] |}
              ltac:(lia) ltac:(lia) Hfreq) as [ts Hfill].
  set (items := [("core", Tiered.core ts); ("extended", Tiered.extended ts);
                 ("complete", Tiered.complete ts)]).
  destruct (export_tiers_runs language_name items Hio Hsize (B64.zero, ∅) fs)
    as [state Hstate].
  pose proof (export_tiers_spec language_name items (B64.zero, ∅) fs)
    as [Hpaths Hok]. cbv zeta in Hpaths, Hok.
  destruct (Hok state Hstate (tier_items_distinct language_name ts))
    as [Hfiles Hdom].
  pose proof (tier_files_distinct language_name) as Hnd.
  assert (Hnames : forall tn d, In (tn, d) items ->
            In tn ["core"; "extended"; "complete"]).
  { intros tn d [E|[E|[E|[]]]]; injection E as <- _; cbn; tauto. }
  assert (Hdistinct : forall a b,
            In a ["core"; "extended"; "complete"] ->
            In b ["core"; "extended"; "complete"] ->
            tier_file language_name a = tier_file language_name b -> a = b).
  { intros a b Ha Hb Heq. unfold tier_file in Heq.
    apply (append_cancel_l "public/wordfreq-tiers/"),
          (append_cancel_l (lower language_name)) in Heq.
    destruct Ha as [<-|[<-|[<-|[]]]], Hb as [<-|[<-|[<-|[]]]];
      try reflexivity; discriminate Heq. }
  assert (Hmeta_ne : forall a, In a ["core"; "extended"; "complete"] ->
            metadata_file language_name <> tier_file language_name a).
  { intros a Ha Heq. unfold tier_file, metadata_file in Heq.
    apply (append_cancel_l "public/wordfreq-tiers/"),
          (append_cancel_l (lower language_name)) in Heq.
    destruct Ha as [<-|[<-|[<-|[]]]]; discriminate Heq. }
  assert (Huniq : forall tn d d', In (tn, d) items -> In (tn, d') items -> d = d').
  { intros tn d d' [E|[E|[E|[]]]] [E'|[E'|[E'|[]]]]; congruence. }
  destruct (Tiered.export_tiers language_name (B64.zero, ∅) items fs)
    as [tiers_result fs1] eqn:Htiers. cbn [fst snd] in *. subst tiers_result.
  destruct state as [total_size info].
  eexists ts, _, _. split; [exact Hfill|]. split.
  { unfold Tiered.export_tiered_language_data, try_except,
      Tiered.export_tiered_language_data_body.
    fold max_words. fold (metadata_file language_name).
    fold (tier_limits max_words).
    unfold mbind, M_bind, lift, makedirs, dump_to, mret, M_ret.
    rewrite Htop, Hfill, !Hio. fold items. rewrite Htiers.
    reflexivity. }
  split; [apply lookup_insert_eq|].
  repeat (split; [reflexivity|]).
  intros tn d Hin. pose proof (Hnames tn d Hin) as Htn.
  rewrite lookup_insert_ne by (apply Hmeta_ne, Htn).
  cbn [Tiered.metadata_tiers snd] in *. split.
  - intros Hd. split; [apply (Hfiles tn d Hin Hd)|].
    apply Hdom. right. exists d. auto.
  - intros ->. split.
    + apply Hpaths. intros tn' d' Hin' Hd' Heq.
      apply (Hdistinct tn tn' Htn (Hnames tn' d' Hin')) in Heq. subst tn'.
      apply Hd', (Huniq tn d' [] Hin' Hin).
    + rewrite Hdom. intros [Hempty|(d' & Hin' & Hd')]; [set_solver|].
      apply Hd', (Huniq tn d' [] Hin' Hin).
Qed.

End TieredFacts.

Lemma export_tiered_language_data_footprint_witness :
  exists fs' m t,
    Tiered.export_tiered_language_data
      (H := mock_wordfreq ["the"; "of"; "and"] []) (H0 := mock_os)
      "English" "en" ∅ = (Ok 3, fs') /\
    fs' !! metadata_file "English" = Some (Tiered.MetadataFile m) /\
    Tiered.total_words m = 3 /\
    fs' !! tier_file "English" "core" = Some (Tiered.TierFile t) /\
    Tiered.word_count (Tiered.tier_info t) = Z.min 15000 3.
Proof.
  destruct (export_tiered_language_data_footprint
              (H := mock_wordfreq ["the"; "of"; "and"] []) (H0 := mock_os)
              "English" "en" ∅)
    as (count & fs' & Hrun & _ & Hfiles).
  assert (Hcount : count = 3).
  { pose proof (f_equal fst Hrun) as Hfst. vm_compute in Hfst.
    injection Hfst as <-. reflexivity. }
  subst count.
  destruct (Hfiles ltac:(discriminate)) as (m & t & Hmeta & Htotal & Hcore & Hwords).
  exists fs', m, t. repeat split; assumption.
Defined.

Lemma small_language_writes_fewer_tiers_witness :
  snd (Tiered.export_tiered_language_data
         (H := mock_wordfreq ["the"; "of"; "and"] []) (H0 := mock_os)
         "English" "en" ∅)
    !! tier_file "English" "extended"
  = (∅ : disk Tiered.document) !! tier_file "English" "extended".
Proof.
  refine (proj1 (small_language_writes_fewer_tiers
                   (H := mock_wordfreq ["the"; "of"; "and"] [])
                   (H0 := mock_os)
                   "English" "en" ["the"; "of"; "and"] ∅ _) _).
  - vm_compute. reflexivity.
  - vm_compute. discriminate.
Defined.

Lemma export_tiered_language_data_success_witness :
  exists fs',
    Tiered.export_tiered_language_data
      (H := mock_wordfreq ["the"; "of"; "and"] []) (H0 := mock_os)
      "English" "en" ∅
    = (Ok (len ["the"; "of"; "and"]), fs').
Proof.
  destruct (export_tiered_language_data_success
              (H := mock_wordfreq ["the"; "of"; "and"] []) (H0 := mock_os)
              "English" "en" ["the"; "of"; "and"] ∅)
    as (ts & m & fs' & _ & Hrun & _).
  - vm_compute. reflexivity.
  - (intros w _; eexists; reflexivity).
  - reflexivity.
  - (intros value; cbn; lia).
  - (exists fs'; exact Hrun).
Defined.

(** ** The two [main] loops *)

Section Frames.
Context `{Wordfreq}.

Lemma flat_export_frame `{OS Flat.document}
    (language_name language_code : string) (num_words : option Z)
    (fs : disk Flat.document) :
  exists count fs',
    Flat.export_language_frequencies language_name language_code num_words fs
    = (Ok count, fs') /\
    0 <= count /\
    (forall path, path <> flat_file language_name -> fs' !! path = fs !! path).
Proof.
  unfold Flat.export_language_frequencies, try_except,
    Flat.export_language_frequencies_body.
  fold (flat_file language_name).
  unfold mbind, M_bind, lift, makedirs, dump_to, getsize_mb, mret, M_ret.
  destruct (match num_words with
            | Some n => top_n_list language_code n
            | None => top_n_list language_code (probe_max_words language_code)
            end) as [words|e].
  2: { exists 0, fs. split; [reflexivity|]. split; [lia|reflexivity]. }
  destruct (Flat.scale_words language_code words ∅) as [freq_data|e].
  2: { exists 0, fs. split; [reflexivity|]. split; [lia|reflexivity]. }
  destruct (io_fault "public").
  { exists 0, fs. split; [reflexivity|]. split; [lia|reflexivity]. }
  destruct (io_fault (flat_file language_name)).
  { exists 0, fs. split; [reflexivity|]. split; [lia|reflexivity]. }
  unfold mbind, M_bind, getsize, lift. rewrite lookup_insert_eq.
  destruct (int_truediv (encoded_size freq_data) 1024) as [kb|e];
    eexists _, _; (split; [reflexivity|]); (split; [lia|]);
    intros path Hpath; apply lookup_insert_ne; congruence.
Qed.

Lemma tiered_export_frame `{OS Tiered.document}
    (language_name language_code : string) (fs : disk Tiered.document) :
  exists count fs',
    Tiered.export_tiered_language_data language_name language_code fs
    = (Ok count, fs') /\
    0 <= count /\
    (forall path,
       ~ In path [tier_file language_name "core";
                  tier_file language_name "extended";
                  tier_file language_name "complete";
                  metadata_file language_name] ->
       fs' !! path = fs !! path).
Proof.
  pose proof (export_tiered_language_data_run language_name language_code fs)
    as Hrun. cbv zeta in Hrun.
  set (run := Tiered.export_tiered_language_data language_name language_code fs)
    in *.
  assert (Hitems : forall ts path,
            ~ In path [tier_file language_name "core";
                       tier_file language_name "extended";
                       tier_file language_name "complete";
                       metadata_file language_name] ->
            forall tier_name (tier_data : list Tiered.word_entry),
              In (tier_name, tier_data)
                 [("core", Tiered.core ts); ("extended", Tiered.extended ts);
                  ("complete", Tiered.complete ts)] ->
              tier_data <> [] -> path <> tier_file language_name tier_name).
  { intros ts path Hpath tn d Hin _ ->. apply Hpath.
    destruct Hin as [Heq|[Heq|[Heq|[]]]]; injection Heq as <- _;
      cbn; tauto. }
  destruct Hrun as [Hrun|(all_words & ts & Htop & Hfill & Hdir & Hrun)].
  { exists 0, fs. split; [exact Hrun|]. split; [lia|reflexivity]. }
  pose proof (export_tiers_spec language_name
                [("core", Tiered.core ts); ("extended", Tiered.extended ts);
                 ("complete", Tiered.complete ts)] (B64.zero, ∅) fs)
    as [Hpaths _]. cbv zeta in Hpaths.
  destruct Hrun as [(Hcount & Hfs & _)|(state & Hstate & Hmeta & Hrun)].
  - exists 0, (snd run). split; [rewrite <- Hcount; apply surjective_pairing|].
    split; [lia|].
    intros path Hpath. rewrite Hfs. apply Hpaths, Hitems, Hpath.
  - eexists _, _. split; [exact Hrun|]. split; [unfold len; lia|].
    intros path Hpath. rewrite lookup_insert_ne by (cbn in Hpath; tauto).
    apply Hpaths, Hitems, Hpath.
Qed.

(** X14: the flat [main] never raises, its total is not negative, and the
    only paths it may change are the files of the three languages. *)
Theorem flat_main_frame `{OS Flat.document} (fs : disk Flat.document) :
  exists total fs',
    Flat.main fs = (Ok total, fs') /\
    0 <= total /\
    (forall path,
       ~ In path [flat_file "English"; flat_file "Spanish";
                  flat_file "Portuguese"] ->
       fs' !! path = fs !! path).
Proof.
  destruct (export_all_three
              (fun lang_name lang_code =>
                 Flat.export_language_frequencies lang_name lang_code None) fs)
    as (c1 & fs1 & c2 & fs2 & c3 & fs3 & H1 & H2 & H3 & Hmain).
  { intros name code fs0.
    destruct (flat_export_frame name code None fs0) as (c & fs' & Hrun & _).
    exists c, fs'. exact Hrun. }
  destruct (flat_export_frame "English" "en" None fs)
    as (c1' & fs1' & H1' & Hc1 & Hp1).
  destruct (flat_export_frame "Spanish" "es" None fs1)
    as (c2' & fs2' & H2' & Hc2 & Hp2).
  destruct (flat_export_frame "Portuguese" "pt" None fs2)
    as (c3' & fs3' & H3' & Hc3 & Hp3).
  cbv beta in H1, H2, H3.
  rewrite H1 in H1'. injection H1' as <- <-.
  rewrite H2 in H2'. injection H2' as <- <-.
  rewrite H3 in H3'. injection H3' as <- <-.
  exists (c1 + c2 + c3), fs3. split; [exact Hmain|]. split; [lia|].
  intros path Hpath.
  rewrite Hp3, Hp2, Hp1 by (intros ->; apply Hpath; cbn [In]; tauto).
  reflexivity.
Qed.

(** X15: the tiered [main] never raises, its total is not negative, and the
    only paths it may change are the tier files and the metadata files of
    the three languages. *)
Theorem tiered_main_frame `{OS Tiered.document} (fs : disk Tiered.document) :
  exists total fs',
    Tiered.main fs = (Ok total, fs') /\
    0 <= total /\
    (forall path,
       (forall language_name,
          In language_name ["English"; "Spanish"; "Portuguese"] ->
          ~ In path [tier_file language_name "core";
                     tier_file language_name "extended";
                     tier_file language_name "complete";
                     metadata_file language_name]) ->
       fs' !! path = fs !! path).
Proof.
  destruct (export_all_three Tiered.export_tiered_language_data fs)
    as (c1 & fs1 & c2 & fs2 & c3 & fs3 & H1 & H2 & H3 & Hmain).
  { intros name code fs0.
    destruct (tiered_export_frame name code fs0) as (c & fs' & Hrun & _).
    exists c, fs'. exact Hrun. }
  destruct (tiered_export_frame "English" "en" fs)
    as (c1' & fs1' & H1' & Hc1 & Hp1).
  destruct (tiered_export_frame "Spanish" "es" fs1)
    as (c2' & fs2' & H2' & Hc2 & Hp2).
  destruct (tiered_export_frame "Portuguese" "pt" fs2)
    as (c3' & fs3' & H3' & Hc3 & Hp3).
  rewrite H1 in H1'. injection H1' as <- <-.
  rewrite H2 in H2'. injection H2' as <- <-.
  rewrite H3 in H3'. injection H3' as <- <-.
  exists (c1 + c2 + c3), fs3. split; [exact Hmain|]. split; [lia|].
  intros path Hpath.
  rewrite Hp3, Hp2, Hp1; [reflexivity|..]; apply Hpath; cbn; tauto.
Qed.

End Frames.
